(** * A layered user service with a cache-aside proxy (main.go)

    The development embeds main.go: the [User] model, the persistence
    layer [userDb], the [cache] wrapper around the redis client, the
    repositories [userRepo] and [proxyUserRepo], the validation service
    [userService] and the request handlers of [userController].

    The program talks to three collaborators that are not part of its
    source: a SQLite database behind database/sql, a redis server behind
    go-redis, and encoding/json.  Each gets a small executable model in a
    module of its own ([Sqlite], [Redis], [Json]); the functions of main.go
    are then written against these models in a state monad over the [world]
    the process can observe (database file, redis server, log output).

    Conventions.
    - Go's [int] is [Z]; the program does no arithmetic on it (it only
      compares an age with 18), so no wrap-around arises.
    - Go's [string] and [[]byte] are [string] (a sequence of bytes).
    - A slice is [option (list A)]: [None] is the nil slice, [Some l] a
      non-nil slice; encoding/json tells the two apart.
    - A Go result [(x, err)] is a pair whose second component is
      [option error]; [None] is the nil error.
    - The [context.Context] arguments are dropped: cancellation shows up as
      a failing client call, which the fault schedules of [Sqlite] and
      [Redis] cover. *)

From Stdlib Require Import ZArith NArith Ascii String List Lia Bool Sorted.
From stdpp Require Import base option list strings gmap pretty relations.

Open Scope string_scope.
Open Scope list_scope.
Open Scope Z_scope.

(** ** Bytes and strings *)

Definition byte_of (c : ascii) : N := N_of_ascii c.

Definition in_range (c : ascii) (lo hi : N) : bool :=
  ((lo <=? byte_of c) && (byte_of c <=? hi))%N.

(** The double quote, written by its code so that no literal has to
    escape it. *)
Definition dquote : ascii := "034"%char.
Definition DQ : string := String dquote "".

(** The line feed. *)
Definition LF : string := String "010"%char "".

Fixpoint drop_str (n : nat) (s : string) : string :=
  match n, s with
  | O, _ => s
  | S n', String _ r => drop_str n' r
  | S _, EmptyString => EmptyString
  end.

Fixpoint take_str (n : nat) (s : string) : string :=
  match n, s with
  | S n', String c r => String c (take_str n' r)
  | _, _ => EmptyString
  end.

Fixpoint join_str (sep : string) (l : list string) : string :=
  match l with
  | [] => ""
  | [x] => x
  | x :: r => x +:+ sep +:+ join_str sep r
  end.

(** ** Slices *)

Definition slice (A : Type) : Type := option (list A).

(** [append(s, x)]: appending to the nil slice allocates. *)
Definition append {A : Type} (s : slice A) (x : A) : slice A :=
  match s with
  | None => Some [x]
  | Some l => Some (l ++ [x])
  end.

(** ** models *)

Record User : Type := mkUser {
  Id : Z;
  Name : string;
  Password : string;
  Email : string;
  Age : Z
}.

Definition zeroUser : User := mkUser 0 "" "" "" 0.

#[global] Instance User_eq_dec : EqDecision User.
Proof. solve_decision. Defined.

(** The dynamic types the model distinguishes among the values an
    [interface{}] argument can hold. *)
Inductive value : Type :=
| BytesV (data : string)        (* []byte *)
| UsersV (users : slice User)   (* []User *)
| ChanV.                        (* chan int: a type encoding/json rejects *)

(** ** Errors

    An error is either built by main.go with [fmt.Errorf] or comes out of
    one of the libraries.  Library errors keep the text they print. *)
Inductive error : Type :=
| ErrNew (msg : string)                   (* fmt.Errorf(msg) *)
| ErrWrap (msg : string) (cause : error)  (* fmt.Errorf(msg + ": %w", cause) *)
| ErrSqliteUnique (table column : string) (* UNIQUE constraint failed *)
| ErrSqliteNoTable (table : string)       (* no such table *)
| ErrSqlDriver (msg : string)             (* any other failure of the call *)
| ErrRedisNil                             (* redis.Nil *)
| ErrRedisIO (msg : string)               (* transport failure *)
| ErrJsonUnsupportedType (ty : string)    (* json.UnsupportedTypeError *)
| ErrJsonDecode.                          (* syntax or type error, EOF *)

#[global] Instance error_eq_dec : EqDecision error.
Proof. solve_decision. Defined.

(** [err.Error()].  The text of a JSON decoding error depends on the
    offending byte and offset, which the model does not track: a fixed
    text stands for it. *)
Fixpoint Error (e : error) : string :=
  match e with
  | ErrNew msg => msg
  | ErrWrap msg cause => msg +:+ ": " +:+ Error cause
  | ErrSqliteUnique t c => "UNIQUE constraint failed: " +:+ t +:+ "." +:+ c
  | ErrSqliteNoTable t => "no such table: " +:+ t
  | ErrSqlDriver msg => msg
  | ErrRedisNil => "redis: nil"
  | ErrRedisIO msg => msg
  | ErrJsonUnsupportedType ty => "json: unsupported type: " +:+ ty
  | ErrJsonDecode => "json: cannot decode value"
  end.

(** [errors.Unwrap] iterated: the error at the bottom of a chain. *)
Fixpoint root_cause (e : error) : error :=
  match e with
  | ErrWrap _ cause => root_cause cause
  | _ => e
  end.

(** ** UTF-8, as encoding/json sees strings *)

Module Utf8.

(** [utf8.DecodeRuneInString]: the width of the well-formed sequence at
    the head of [s]; [None] when the head is not one (Go then yields
    RuneError with width 1). *)
Definition width (s : string) : option nat :=
  match s with
  | EmptyString => None
  | String c0 r =>
    let b0 := byte_of c0 in
    if (b0 <? 128)%N then Some 1%nat
    else if in_range c0 194 223 then
      match r with
      | String c1 _ => if in_range c1 128 191 then Some 2%nat else None
      | _ => None
      end
    else if in_range c0 224 239 then
      match r with
      | String c1 (String c2 _) =>
        let lo := if (b0 =? 224)%N then 160%N else 128%N in
        let hi := if (b0 =? 237)%N then 159%N else 191%N in
        if in_range c1 lo hi && in_range c2 128 191
        then Some 3%nat else None
      | _ => None
      end
    else if in_range c0 240 244 then
      match r with
      | String c1 (String c2 (String c3 _)) =>
        let lo := if (b0 =? 240)%N then 144%N else 128%N in
        let hi := if (b0 =? 244)%N then 143%N else 191%N in
        if in_range c1 lo hi && in_range c2 128 191 && in_range c3 128 191
        then Some 4%nat else None
      | _ => None
      end
    else None
  end.

Definition chr (n : N) : string := String (ascii_of_N n) "".

(** [utf8.AppendRune] on a code point that is not a surrogate. *)
Definition encode (r : N) : string :=
  if (r <? 128)%N then chr r
  else if (r <? 2048)%N then
    chr (192 + r / 64) +:+ chr (128 + r mod 64)
  else if (r <? 65536)%N then
    chr (224 + r / 4096) +:+ chr (128 + (r / 64) mod 64)
    +:+ chr (128 + r mod 64)
  else
    chr (240 + r / 262144) +:+ chr (128 + (r / 4096) mod 64)
    +:+ chr (128 + (r / 64) mod 64) +:+ chr (128 + r mod 64).

(** U+FFFD, the replacement character. *)
Definition replacement : string := encode 65533.

End Utf8.

(** ** encoding/json, as far as main.go uses it

    [Encode] is [json.NewEncoder(w).Encode(v)] (HTML escaping on, a newline
    after the document) and [DecodeUsers] is
    [json.NewDecoder(r).Decode(&users)] for [var users []User].  Both go
    through the document tree [Json.t]. *)

Module Json.

#[warnings="-register-all"] Inductive t : Type :=
| Null
| Bool (b : bool)
| Int (n : Z)             (* a number literal without fraction and exponent *)
| Float (lit : string)    (* any other number literal, kept as written *)
| Str (s : string)
| Arr (l : list t)
| Obj (l : list (string * t)).

(** *** Writing *)

Definition BS : string := String "092"%char "".

Definition hexdigit (n : N) : string :=
  take_str 1 (drop_str (N.to_nat n) "0123456789abcdef").

Definition u00 (b : N) : string :=
  BS +:+ "u00" +:+ hexdigit (b / 16) +:+ hexdigit (b mod 16).

(** One ASCII byte of a string, as [appendString] writes it with HTML
    escaping; U+0008 and U+000C get the short escapes of Go 1.22 and
    later. *)
Definition escape_ascii (c : ascii) : string :=
  let b := byte_of c in
  if (b =? 34)%N then BS +:+ DQ
  else if (b =? 92)%N then BS +:+ BS
  else if (b =? 8)%N then BS +:+ "b"
  else if (b =? 12)%N then BS +:+ "f"
  else if (b =? 10)%N then BS +:+ "n"
  else if (b =? 13)%N then BS +:+ "r"
  else if (b =? 9)%N then BS +:+ "t"
  else if (b <? 32)%N || (b =? 60)%N || (b =? 62)%N || (b =? 38)%N
  then u00 b
  else String c "".

(** U+2028 and U+2029 are written as escapes. *)
Definition line_sep (s : string) : option string :=
  if String.prefix (Utf8.encode 8232) s then Some (BS +:+ "u2028")
  else if String.prefix (Utf8.encode 8233) s then Some (BS +:+ "u2029")
  else None.

Fixpoint escape_go (fuel : nat) (s : string) : string :=
  match fuel, s with
  | S f, String c r =>
    if (byte_of c <? 128)%N then escape_ascii c +:+ escape_go f r
    else
      match Utf8.width s with
      | None => BS +:+ "ufffd" +:+ escape_go f r
      | Some n =>
        match line_sep s with
        | Some e => e +:+ escape_go f (drop_str n s)
        | None => take_str n s +:+ escape_go f (drop_str n s)
        end
      end
  | _, _ => ""
  end.

Definition quote (s : string) : string :=
  DQ +:+ escape_go (String.length s) s +:+ DQ.

Fixpoint render (j : t) : string :=
  match j with
  | Null => "null"
  | Bool true => "true"
  | Bool false => "false"
  | Int n => pretty n
  | Float lit => lit
  | Str s => quote s
  | Arr l => "[" +:+ join_str "," (map render l) +:+ "]"
  | Obj l =>
    "{" +:+ join_str ","
              (map (fun kv => quote (fst kv) +:+ ":" +:+ render (snd kv)) l)
        +:+ "}"
  end.

(** The struct tags of [User]. *)
Definition marshalUser (u : User) : t :=
  Obj [("id", Int (Id u)); ("name", Str (Name u));
       ("password", Str (Password u)); ("email", Str (Email u));
       ("age", Int (Age u))].

(** A nil slice is the document [null], any other slice an array. *)
Definition marshalUsers (us : slice User) : t :=
  match us with
  | None => Null
  | Some l => Arr (map marshalUser l)
  end.

(** Standard base64 with padding: how a [[]byte] is written. *)
Definition b64char (n : N) : string :=
  take_str 1 (drop_str (N.to_nat n)
    "ABCDEFGHIJKLMNOPQRSTUVWXYZabcdefghijklmnopqrstuvwxyz0123456789+/").

Fixpoint base64 (s : string) : string :=
  match s with
  | EmptyString => ""
  | String a EmptyString =>
    let x := byte_of a in
    b64char (x / 4) +:+ b64char ((x mod 4) * 16) +:+ "=="
  | String a (String b EmptyString) =>
    let x := byte_of a in let y := byte_of b in
    b64char (x / 4) +:+ b64char ((x mod 4) * 16 + y / 16)
    +:+ b64char ((y mod 16) * 4) +:+ "="
  | String a (String b (String c r)) =>
    let x := byte_of a in let y := byte_of b in let z := byte_of c in
    b64char (x / 4) +:+ b64char ((x mod 4) * 16 + y / 16)
    +:+ b64char ((y mod 16) * 4 + z / 64) +:+ b64char (z mod 64)
    +:+ base64 r
  end%N.

Definition marshal (v : value) : error + t :=
  match v with
  | BytesV data => inr (Str (base64 data))
  | UsersV us => inr (marshalUsers us)
  | ChanV => inl (ErrJsonUnsupportedType "chan int")
  end.

(** [Encoder.Encode]: the document followed by a newline, or the error
    of the marshaller and nothing written. *)
Definition Encode (v : value) : error + string :=
  match marshal v with
  | inl e => inl e
  | inr j => inr (render j +:+ LF)
  end.

(** *** Reading *)

Definition is_ws (c : ascii) : bool :=
  let b := byte_of c in
  ((b =? 32) || (b =? 9) || (b =? 10) || (b =? 13))%N.

Fixpoint skip_ws (s : string) : string :=
  match s with
  | String c r => if is_ws c then skip_ws r else s
  | EmptyString => s
  end.

Definition is_digit (c : ascii) : bool := in_range c 48 57.

(** The longest prefix of digits, and what follows it. *)
Fixpoint span_digits (s : string) : string * string :=
  match s with
  | String c r =>
    if is_digit c
    then let '(d, rest) := span_digits r in (String c d, rest)
    else ("", s)
  | EmptyString => ("", "")
  end.

Fixpoint digits_value (acc : Z) (s : string) : Z :=
  match s with
  | String c r => digits_value (10 * acc + Z.of_N (byte_of c - 48)) r
  | EmptyString => acc
  end.

Definition hexval (c : ascii) : option N :=
  if in_range c 48 57 then Some (byte_of c - 48)%N
  else if in_range c 97 102 then Some (byte_of c - 87)%N
  else if in_range c 65 70 then Some (byte_of c - 55)%N
  else None.

(** [getu4] without the leading backslash and u: four hex digits. *)
Definition hex4 (s : string) : option (N * string) :=
  match s with
  | String a (String b (String c (String d r))) =>
    match hexval a, hexval b, hexval c, hexval d with
    | Some x, Some y, Some z, Some w =>
      Some (((x * 16 + y) * 16 + z) * 16 + w, r)%N
    | _, _, _, _ => None
    end
  | _ => None
  end.

(** [getu4]: the code unit of an escape at the head of [s], if any. *)
Definition getu4 (s : string) : option (N * string) :=
  match s with
  | String "092"%char (String "u"%char r) => hex4 r
  | _ => None
  end.

(** The text of one u-escape whose four digits gave [rr], read with [r]
    the input after it: a surrogate pair is combined, a lone surrogate
    becomes U+FFFD. *)
Definition unescape_u (rr : N) (r : string) : string * string :=
  if ((55296 <=? rr) && (rr <? 57344))%N then
    match getu4 r with
    | Some (rr1, r') =>
      if ((rr <? 56320) && (56320 <=? rr1) && (rr1 <? 57344))%N
      then (Utf8.encode ((rr - 55296) * 1024 + (rr1 - 56320) + 65536)%N, r')
      else (Utf8.replacement, r)
    | None => (Utf8.replacement, r)
    end
  else (Utf8.encode rr, r).

Definition simple_escape (c : ascii) : option string :=
  let b := byte_of c in
  if ((b =? 34) || (b =? 92) || (b =? 47))%N then Some (String c "")
  else if (b =? 98)%N then Some (Utf8.chr 8)
  else if (b =? 102)%N then Some (Utf8.chr 12)
  else if (b =? 110)%N then Some (Utf8.chr 10)
  else if (b =? 114)%N then Some (Utf8.chr 13)
  else if (b =? 116)%N then Some (Utf8.chr 9)
  else None.

(** A string literal after its opening quote: the string it denotes and
    the input after the closing quote. *)
Fixpoint parse_string (fuel : nat) (s : string) : option (string * string) :=
  match fuel, s with
  | S f, String c r =>
    let b := byte_of c in
    if (b =? 34)%N then Some ("", r)
    else if (b =? 92)%N then
      match r with
      | String e r' =>
        if (byte_of e =? 117)%N then
          match hex4 r' with
          | Some (rr, r'') =>
            let '(txt, rest) := unescape_u rr r'' in
            '(tl, out) ← parse_string f rest; Some (txt +:+ tl, out)
          | None => None
          end
        else
          txt ← simple_escape e;
          '(tl, out) ← parse_string f r'; Some (txt +:+ tl, out)
      | EmptyString => None
      end
    else if (b <? 32)%N then None
    else if (b <? 128)%N then
      '(tl, out) ← parse_string f r; Some (String c tl, out)
    else
      match Utf8.width s with
      | Some n =>
        '(tl, out) ← parse_string f (drop_str n s);
        Some (take_str n s +:+ tl, out)
      | None =>
        '(tl, out) ← parse_string f r; Some (Utf8.replacement +:+ tl, out)
      end
  | _, _ => None
  end.

(** A number literal, by the JSON grammar. *)
Definition parse_number (s : string) : option (t * string) :=
  let '(neg, s1) :=
    match s with
    | String "-"%char r => (true, r)
    | _ => (false, s)
    end in
  '(ip, r1) ←
    match s1 with
    | String c r =>
      if (byte_of c =? 48)%N then Some ("0", r)
      else if is_digit c then Some (span_digits s1)
      else None
    | EmptyString => None
    end;
  '(fp, r2) ←
    match r1 with
    | String "."%char r =>
      let '(d, rest) := span_digits r in
      if String.eqb d "" then None else Some ("." +:+ d, rest)
    | _ => Some ("", r1)
    end;
  '(ep, r3) ←
    match r2 with
    | String c r =>
      if ((byte_of c =? 101) || (byte_of c =? 69))%N then
        let '(sg, r') :=
          match r with
          | String "+"%char x => ("+", x)
          | String "-"%char x => ("-", x)
          | _ => ("", r)
          end in
        let '(d, rest) := span_digits r' in
        if String.eqb d "" then None
        else Some (String c "" +:+ sg +:+ d, rest)
      else Some ("", r2)
    | EmptyString => Some ("", r2)
    end;
  if String.eqb fp "" && String.eqb ep ""
  then Some (Int (if neg : bool then - digits_value 0 ip
                  else digits_value 0 ip), r3)
  else Some (Float ((if neg : bool then "-" else "") +:+ ip +:+ fp +:+ ep), r3).

Definition expect (lit : string) (v : t) (s : string) : option (t * string) :=
  if String.prefix lit s
  then Some (v, drop_str (String.length lit) s) else None.

(** One value at the head of the input, and the input after it. *)
Fixpoint parse_value (fuel : nat) (s : string) : option (t * string) :=
  match fuel with
  | O => None
  | S f =>
    match skip_ws s with
    | EmptyString => None
    | String c r =>
      let b := byte_of c in
      if (b =? 123)%N then
        match skip_ws r with
        | String "}"%char r' => Some (Obj [], r')
        | _ => '(l, out) ← parse_members f r; Some (Obj l, out)
        end
      else if (b =? 91)%N then
        match skip_ws r with
        | String "]"%char r' => Some (Arr [], r')
        | _ => '(l, out) ← parse_elems f r; Some (Arr l, out)
        end
      else if (b =? 34)%N then
        '(x, out) ← parse_string (String.length r) r; Some (Str x, out)
      else if (b =? 116)%N then expect "true" (Bool true) (String c r)
      else if (b =? 102)%N then expect "false" (Bool false) (String c r)
      else if (b =? 110)%N then expect "null" Null (String c r)
      else if (b =? 45)%N || is_digit c then parse_number (String c r)
      else None
    end
  end
with parse_elems (fuel : nat) (s : string) : option (list t * string) :=
  match fuel with
  | O => None
  | S f =>
    '(v, r) ← parse_value f s;
    match skip_ws r with
    | String ","%char r' =>
      '(vs, out) ← parse_elems f r'; Some (v :: vs, out)
    | String "]"%char r' => Some ([v], r')
    | _ => None
    end
  end
with parse_members (fuel : nat) (s : string)
    : option (list (string * t) * string) :=
  match fuel with
  | O => None
  | S f =>
    match skip_ws s with
    | String "034"%char r =>
      '(k, r1) ← parse_string (String.length r) r;
      match skip_ws r1 with
      | String ":"%char r2 =>
        '(v, r3) ← parse_value f r2;
        match skip_ws r3 with
        | String ","%char r4 =>
          '(kvs, out) ← parse_members f r4; Some ((k, v) :: kvs, out)
        | String "}"%char r4 => Some ([(k, v)], r4)
        | _ => None
        end
      | _ => None
      end
    | _ => None
    end
  end.

(** [Decoder.Decode] reads the first value of the stream and leaves what
    follows it unread. *)
Definition parse (s : string) : option t :=
  fst <$> parse_value (2 * String.length s + 2) s.

(** [foldName]: the case-insensitive form under which a key is looked
    up.  Besides the ASCII letters, U+017F folds to S and U+212A to K. *)
Fixpoint fold_name (fuel : nat) (s : string) : string :=
  match fuel, s with
  | S f, String c r =>
    if in_range c 97 122
    then String (ascii_of_N (byte_of c - 32)) (fold_name f r)
    else if String.prefix (Utf8.encode 383) s
    then String "S"%char (fold_name f (drop_str 2 s))
    else if String.prefix (Utf8.encode 8490) s
    then String "K"%char (fold_name f (drop_str 3 s))
    else String c (fold_name f r)
  | _, _ => ""
  end.

Definition int64_ok (n : Z) : bool :=
  (- 2 ^ 63 <=? n) && (n <=? 2 ^ 63 - 1).

(** A document stored into an [int] field. *)
Definition store_int (j : t) (old : Z) : option Z :=
  match j with
  | Null => Some old
  | Int n => if int64_ok n then Some n else None
  | _ => None
  end.

(** A document stored into a [string] field. *)
Definition store_string (j : t) (old : string) : option string :=
  match j with
  | Null => Some old
  | Str x => Some x
  | _ => None
  end.

(** The members of an object stored into a [User], in order; a key that
    names no field is skipped. *)
Fixpoint unmarshalFields (l : list (string * t)) (u : User) : option User :=
  match l with
  | [] => Some u
  | (k, v) :: r =>
    let f := fold_name (String.length k) k in
    if String.eqb f "ID" then
      n ← store_int v (Id u);
      unmarshalFields r (mkUser n (Name u) (Password u) (Email u) (Age u))
    else if String.eqb f "NAME" then
      x ← store_string v (Name u);
      unmarshalFields r (mkUser (Id u) x (Password u) (Email u) (Age u))
    else if String.eqb f "PASSWORD" then
      x ← store_string v (Password u);
      unmarshalFields r (mkUser (Id u) (Name u) x (Email u) (Age u))
    else if String.eqb f "EMAIL" then
      x ← store_string v (Email u);
      unmarshalFields r (mkUser (Id u) (Name u) (Password u) x (Age u))
    else if String.eqb f "AGE" then
      n ← store_int v (Age u);
      unmarshalFields r (mkUser (Id u) (Name u) (Password u) (Email u) n)
    else unmarshalFields r u
  end.

Definition unmarshalUser (j : t) (u : User) : option User :=
  match j with
  | Null => Some u
  | Obj l => unmarshalFields l u
  | _ => None
  end.

(** A document stored into a [[]User] variable: [null] makes it nil, an
    array a fresh slice of that length. *)
Definition unmarshalUsers (j : t) : option (slice User) :=
  match j with
  | Null => Some None
  | Arr l => Some <$> mapM (fun e => unmarshalUser e zeroUser) l
  | _ => None
  end.

(** [json.NewDecoder(r).Decode(&users)] for [var users []User]. *)
Definition DecodeUsers (data : string) : error + slice User :=
  match parse data ≫= unmarshalUsers with
  | Some us => inr us
  | None => inl ErrJsonDecode
  end.

(** [json.NewDecoder(r).Decode(&user)] for [var user User]. *)
Definition DecodeUser (data : string) : error + User :=
  match parse data ≫= (fun j => unmarshalUser j zeroUser) with
  | Some u => inr u
  | None => inl ErrJsonDecode
  end.

End Json.

(** ** The SQLite database behind database/sql

    The database holds tables of the one shape [Migrate] creates: an
    integer primary key with AUTOINCREMENT, three text columns of which
    [email] is UNIQUE, and an integer column.  The three statements are
    the three SQL texts of main.go, with the table name they are formatted
    with.  A statement either fails as a whole or takes effect as a whole.

    [faults] is the schedule of failures that do not come from the rows
    (connection lost, context cancelled, disk full, rowids used up): each
    call consumes its head, and [Some msg] makes the call fail with that
    text without reaching the tables.  [history] records every call made
    on the handle. *)

Module Sqlite.

Record row : Type := mkRow {
  c_id : Z;
  c_name : string;
  c_password : string;
  c_email : string;
  c_age : Z
}.

(** [seq] is the table's entry in sqlite_sequence: the largest rowid
    handed out so far. [rows] is in rowid order. *)
Record table : Type := mkTable {
  rows : list row;
  seq : Z
}.

Inductive stmt : Type :=
| CreateTableIfNotExists (name : string)
| Insert (name : string) (uname password email : string) (age : Z)
| SelectAll (name : string).

Record db : Type := mkDb {
  tables : gmap string table;
  faults : list (option string);
  history : list stmt
}.

Inductive answer : Type :=
| Done (lastInsertId : Z)
| Rows (l : list row)
| Failed (e : error).

Definition max_rowid (l : list row) : Z :=
  fold_right Z.max 0 (map c_id l).

Definition email_taken (email : string) (l : list row) : bool :=
  existsb (fun r => String.eqb (c_email r) email) l.

(** The effect of a statement on the tables. AUTOINCREMENT picks one
    more than the largest rowid the table ever had. *)
Definition apply (q : stmt) (ts : gmap string table)
    : answer * gmap string table :=
  match q with
  | CreateTableIfNotExists name =>
    match ts !! name with
    | Some _ => (Done 0, ts)
    | None => (Done 0, <[name := mkTable [] 0]> ts)
    end
  | Insert name uname password email age =>
    match ts !! name with
    | None => (Failed (ErrSqliteNoTable name), ts)
    | Some t =>
      let id := Z.max (seq t) (max_rowid (rows t)) + 1 in
      if email_taken email (rows t)
      then (Failed (ErrSqliteUnique name "email"), ts)
      else (Done id,
            <[name := mkTable (rows t ++ [mkRow id uname password email age])
                              id]> ts)
    end
  | SelectAll name =>
    match ts !! name with
    | None => (Failed (ErrSqliteNoTable name), ts)
    | Some t => (Rows (rows t), ts)
    end
  end.

(** One call on the handle. *)
Definition run (q : stmt) (d : db) : answer * db :=
  match faults d with
  | Some msg :: rest =>
    (Failed (ErrSqlDriver msg), mkDb (tables d) rest (history d ++ [q]))
  | _ =>
    let '(a, ts) := apply q (tables d) in
    (a, mkDb ts (tail (faults d)) (history d ++ [q]))
  end.

End Sqlite.

(** ** The redis server behind go-redis

    Keys map to a value and, when they expire, the instant at which they
    do; [now] is the server's clock, in the nanoseconds of
    [time.Duration].  [faults] and [history] are as for [Sqlite]: a
    scheduled fault makes the command fail without reaching the server. *)

Module Redis.

Record entry : Type := mkEntry {
  data : string;
  deadline : option Z
}.

Inductive cmd : Type :=
| GET (key : string)
| SET (key : string) (val : string) (expiration : Z)
| DEL (key : string).

Record server : Type := mkServer {
  store : gmap string entry;
  now : Z;
  faults : list (option string);
  history : list cmd
}.

Inductive reply : Type :=
| Bulk (val : string)
| Nil
| Ok
| Failed (e : error).

Definition live (t : Z) (e : entry) : bool :=
  match deadline e with
  | None => true
  | Some d => t <? d
  end.

(** What a read of [key] finds at time [t]. *)
Definition lookup (key : string) (t : Z) (m : gmap string entry)
    : option entry :=
  match m !! key with
  | Some e => if live t e then Some e else None
  | None => None
  end.

Definition KeepTTL : Z := -1.

(** [SET key val] with the options go-redis derives from [expiration]:
    a positive one is a time to live, [KeepTTL] keeps the deadline the
    key has, anything else stores the key without one. *)
Definition apply (c : cmd) (t : Z) (m : gmap string entry)
    : reply * gmap string entry :=
  match c with
  | GET key =>
    match lookup key t m with
    | Some e => (Bulk (data e), m)
    | None => (Nil, m)
    end
  | SET key val expiration =>
    let d :=
      if 0 <? expiration then Some (t + expiration)
      else if expiration =? KeepTTL
      then match lookup key t m with
           | Some e => deadline e
           | None => None
           end
      else None in
    (Ok, <[key := mkEntry val d]> m)
  | DEL key => (Ok, delete key m)
  end.

Definition run (c : cmd) (s : server) : reply * server :=
  match faults s with
  | Some msg :: rest =>
    (Failed (ErrRedisIO msg), mkServer (store s) (now s) rest (history s ++ [c]))
  | _ =>
    let '(r, m) := apply c (now s) (store s) in
    (r, mkServer m (now s) (tail (faults s)) (history s ++ [c]))
  end.

End Redis.

(** ** The world and the monad of the program

    Everything main.go reaches through its handles: the database that
    [*sql.DB] points to, the server that [*redis.Client] points to, and
    the lines written by the log package (without their time stamp). *)

Record world : Type := mkWorld {
  sqlite : Sqlite.db;
  redis : Redis.server;
  logs : list string
}.

Definition M (A : Type) : Type := world -> A * world.

#[global] Instance M_ret : MRet M := fun A (a : A) w => (a, w).
#[global] Instance M_bind : MBind M :=
  fun A B (k : A -> M B) (m : M A) w => let '(a, w') := m w in k a w'.

(** [log.Printf], [log.Println] and [log.Print] once the text is
    formatted. *)
Definition log_Print (line : string) : M unit :=
  fun w => (tt, mkWorld (sqlite w) (redis w) (logs w ++ [line])).

(** [db.ExecContext]: the result carries the last insert id. *)
Definition ExecContext (q : Sqlite.stmt) : M (Z * option error) :=
  fun w =>
    let '(a, d) := Sqlite.run q (sqlite w) in
    (match a with
     | Sqlite.Done id => (id, None)
     | Sqlite.Rows _ => (0, None)
     | Sqlite.Failed e => (0, Some e)
     end, mkWorld d (redis w) (logs w)).

(** [result.LastInsertId()]: the sqlite3 driver always has one. *)
Definition LastInsertId (result : Z) : Z * option error := (result, None).

(** [db.QueryContext]: the rows of the result set. *)
Definition QueryContext (q : Sqlite.stmt) : M (list Sqlite.row * option error) :=
  fun w =>
    let '(a, d) := Sqlite.run q (sqlite w) in
    (match a with
     | Sqlite.Rows l => (l, None)
     | Sqlite.Done _ => ([], None)
     | Sqlite.Failed e => ([], Some e)
     end, mkWorld d (redis w) (logs w)).

Definition redis_do (c : Redis.cmd) : M Redis.reply :=
  fun w =>
    let '(r, s) := Redis.run c (redis w) in
    (r, mkWorld (sqlite w) s (logs w)).

(** [client.Get(ctx, key).Bytes()] *)
Definition client_Get (key : string) : M (string * option error) :=
  r ← redis_do (Redis.GET key);
  mret (match r with
        | Redis.Bulk b => (b, None)
        | Redis.Failed e => ("", Some e)
        | _ => ("", Some ErrRedisNil)
        end).

(** [client.Set(ctx, key, data, expiration).Err()] *)
Definition client_Set (key data : string) (expiration : Z) : M (option error) :=
  r ← redis_do (Redis.SET key data expiration);
  mret (match r with
        | Redis.Failed e => Some e
        | _ => None
        end).

(** [client.Del(ctx, key).Err()] *)
Definition client_Del (key : string) : M (option error) :=
  r ← redis_do (Redis.DEL key);
  mret (match r with
        | Redis.Failed e => Some e
        | _ => None
        end).

(** ** db *)

Module UserDB.
Class t (T : Type) : Type := {
  Create : T -> User -> M (Z * option error);
  GetAll : T -> M (slice User * option error)
}.
End UserDB.

Module userDb.

(** The [db] field is the handle on [sqlite] of the world. *)
Record t : Type := mk { TableName : string }.

Definition Migrate (u : t) : M (option error) :=
  '(_, err) ← ExecContext (Sqlite.CreateTableIfNotExists (TableName u));
  match err with
  | Some e => mret (Some (ErrWrap "failed to create table" e))
  | None => mret None
  end.

Definition Create (u : t) (user : User) : M (Z * option error) :=
  '(result, err) ←
    ExecContext (Sqlite.Insert (TableName u) (Name user) (Password user)
                               (Email user) (Age user));
  match err with
  | Some e => mret (0, Some (ErrWrap "failed to insert user" e))
  | None =>
    let '(id, err) := LastInsertId result in
    match err with
    | Some e => mret (0, Some (ErrWrap "failed to retrieve last insert id" e))
    | None => mret (id, None)
    end
  end.

(** [rows.Scan] into the five fields: the columns of the model are
    typed, so the scan cannot fail. *)
Definition Scan (r : Sqlite.row) : User :=
  mkUser (Sqlite.c_id r) (Sqlite.c_name r) (Sqlite.c_password r)
         (Sqlite.c_email r) (Sqlite.c_age r).

(** The loop over [rows.Next()], appending to [users]. *)
Fixpoint scan_rows (rows : list Sqlite.row) (users : slice User)
    : slice User :=
  match rows with
  | [] => users
  | r :: rest => scan_rows rest (append users (Scan r))
  end.

Definition GetAll (u : t) : M (slice User * option error) :=
  '(rows, err) ← QueryContext (Sqlite.SelectAll (TableName u));
  match err with
  | Some e => mret (None, Some (ErrWrap "failed to get all users" e))
  | None => mret (scan_rows rows None, None)
  end.

End userDb.

#[global] Instance userDb_UserDB : UserDB.t userDb.t :=
  {| UserDB.Create := userDb.Create; UserDB.GetAll := userDb.GetAll |}.

(** [NewUserDB]: [None] when [log.Fatal] ends the process. *)
Definition NewUserDB : M (option userDb.t) :=
  let u := userDb.mk "users" in
  err ← userDb.Migrate u;
  match err with
  | Some e => _ ← log_Print (Error e); mret None
  | None => mret (Some u)
  end.

(** ** cache

    [Set] is a keyword of Rocq: the method is [Set_] here. *)

Module Cache.
Class t (T : Type) : Type := {
  Set_ : T -> string -> value -> M (option error);
  Get : T -> string -> M (slice User * option error);
  Delete : T -> string -> M (option error)
}.
End Cache.

Definition Minute : Z := 60 * 1000000000.

Module cache.

(** The [client] field is the handle on [redis] of the world. *)
Record t : Type := mk { dataExpiration : Z }.

(** The bytes [Set] stores: the value itself when its dynamic type is
    [[]byte], its JSON encoding otherwise. *)
Definition payload (v : value) : error + string :=
  match v with
  | BytesV data => inr data
  | _ => Json.Encode v
  end.

Definition Set_ (c : t) (key : string) (v : value) : M (option error) :=
  match payload v with
  | inl e => mret (Some (ErrWrap "failed to encode value" e))
  | inr data =>
    err ← client_Set key data (dataExpiration c);
    _ ← match err with
        | Some e => log_Print ("ошибка записи в кэш: " +:+ Error e +:+ LF)
        | None => mret tt
        end;
    mret None
  end.

(** [ptrValue] is the address of a [[]User] variable that holds nil, as
    at the one call site; the first component of the result is what the
    variable holds afterwards when the call succeeds. *)
Definition Get (c : t) (key : string) : M (slice User * option error) :=
  '(b, err) ← client_Get key;
  match err with
  | Some e =>
    if decide (e = ErrRedisNil)
    then mret (None, Some (ErrNew ("key " +:+ key +:+ " not found")))
    else mret (None, Some (ErrWrap ("failed to get key " +:+ key) e))
  | None =>
    _ ← log_Print ("чтение из кэша: " +:+ key +:+ LF);
    match Json.DecodeUsers b with
    | inl e => mret (None, Some (ErrWrap ("failed to decode key " +:+ key) e))
    | inr users => mret (users, None)
    end
  end.

Definition Delete (c : t) (key : string) : M (option error) :=
  err ← client_Del key;
  match err with
  | Some e =>
    _ ← log_Print ("ошибка удаления кэша: " +:+ Error e +:+ LF);
    mret (Some e)
  | None => mret None
  end.

End cache.

#[global] Instance cache_Cache : Cache.t cache.t :=
  {| Cache.Set_ := cache.Set_; Cache.Get := cache.Get;
     Cache.Delete := cache.Delete |}.

Definition NewCache : cache.t :=
  let defaultDataExpiration := 5 * Minute in
  cache.mk defaultDataExpiration.

(** ** repo *)

Module UserRepo.
Class t (T : Type) : Type := {
  Create : T -> User -> M (Z * option error);
  GetAll : T -> M (slice User * option error)
}.
End UserRepo.

Module userRepo.

Record t (D : Type) : Type := mk { db : D }.
Arguments mk {D} _.
Arguments db {D} _.

Definition Create {D} `{UserDB.t D} (ur : t D) (user : User)
    : M (Z * option error) :=
  UserDB.Create (db ur) user.

Definition GetAll {D} `{UserDB.t D} (ur : t D)
    : M (slice User * option error) :=
  UserDB.GetAll (db ur).

End userRepo.

#[global] Instance userRepo_UserRepo {D} `{UserDB.t D} : UserRepo.t (userRepo.t D) :=
  {| UserRepo.Create := userRepo.Create; UserRepo.GetAll := userRepo.GetAll |}.

Definition NewUserRepo {D} `{UserDB.t D} (db : D) : userRepo.t D :=
  userRepo.mk db.

(** ** Proxy repo *)

Module proxyUserRepo.

Record t (R C : Type) : Type := mk { repo : R; cache : C }.
Arguments mk {R C} _ _.
Arguments repo {R C} _.
Arguments cache {R C} _.

Definition Create {R C} `{UserRepo.t R} `{Cache.t C} (p : t R C)
    (user : User) : M (Z * option error) :=
  '(id, err) ← UserRepo.Create (repo p) user;
  match err with
  | Some e => mret (0, Some e)
  | None =>
    err ← Cache.Delete (cache p) "users";
    _ ← match err with
        | Some e => log_Print ("ошибка сброса кэша: " +:+ Error e +:+ LF)
        | None => mret tt
        end;
    mret (id, None)
  end.

Definition GetAll {R C} `{UserRepo.t R} `{Cache.t C} (p : t R C)
    : M (slice User * option error) :=
  let key := "users" in
  '(users, err) ← Cache.Get (cache p) key;
  match err with
  | None => mret (users, None)
  | Some _ =>
    '(users, err) ← UserRepo.GetAll (repo p);
    match err with
    | Some e => mret (None, Some e)
    | None =>
      err ← Cache.Set_ (cache p) key (UsersV users);
      _ ← match err with
          | Some e => log_Print (Error e)
          | None => mret tt
          end;
      mret (users, None)
    end
  end.

End proxyUserRepo.

#[global] Instance proxyUserRepo_UserRepo {R C} `{UserRepo.t R} `{Cache.t C}
  : UserRepo.t (proxyUserRepo.t R C) :=
  {| UserRepo.Create := proxyUserRepo.Create;
     UserRepo.GetAll := proxyUserRepo.GetAll |}.

Definition NewProxyUserRepo {R C} `{UserRepo.t R} `{Cache.t C}
    (repo : R) (cache : C) : proxyUserRepo.t R C :=
  proxyUserRepo.mk repo cache.

(** ** service *)

Module UserService.
Class t (T : Type) : Type := {
  Create : T -> User -> M (Z * option error);
  GetAll : T -> M (slice User * option error)
}.
End UserService.

Module userService.

Record t (R : Type) : Type := mk { repo : R }.
Arguments mk {R} _.
Arguments repo {R} _.

Definition Create {R} `{UserRepo.t R} (us : t R) (user : User)
    : M (Z * option error) :=
  if Age user <? 18
  then mret (0, Some (ErrNew "возраст пользователя меньше 18 лет"))
  else UserRepo.Create (repo us) user.

Definition GetAll {R} `{UserRepo.t R} (us : t R)
    : M (slice User * option error) :=
  UserRepo.GetAll (repo us).

End userService.

#[global] Instance userService_UserService {R} `{UserRepo.t R}
  : UserService.t (userService.t R) :=
  {| UserService.Create := userService.Create;
     UserService.GetAll := userService.GetAll |}.

Definition NewUserService {R} `{UserRepo.t R} (repo : R) : userService.t R :=
  userService.mk repo.

(** ** controller *)

(** [http.ResponseWriter], as a recorder of what the handler sends: the
    header map, the status line once it is written together with the
    headers that went out with it, and the body.  Writing cannot fail, and
    the Content-Type sniffing of net/http for responses that set none is
    not modelled. *)
Module http.

Definition StatusOK : Z := 200.
Definition StatusCreated : Z := 201.
Definition StatusBadRequest : Z := 400.
Definition StatusInternalServerError : Z := 500.

(** Of a request the handlers read the body only. *)
Record Request : Type := mkRequest { Body : string }.

Record ResponseWriter : Type := mkResponseWriter {
  header : gmap string string;
  status : option Z;
  sent : gmap string string;
  body : string
}.

Definition NewRecorder : ResponseWriter := mkResponseWriter ∅ None ∅ "".

(** [w.Header().Set(k, v)] *)
Definition Header_Set (k v : string) (w : ResponseWriter) : ResponseWriter :=
  mkResponseWriter (<[k := v]> (header w)) (status w) (sent w) (body w).

(** [w.WriteHeader(code)]: only the first call counts. *)
Definition WriteHeader (code : Z) (w : ResponseWriter) : ResponseWriter :=
  match status w with
  | Some _ => w
  | None => mkResponseWriter (header w) (Some code) (header w) (body w)
  end.

(** [w.Write(b)]: sends the header with 200 if none was sent. *)
Definition Write (b : string) (w : ResponseWriter) : ResponseWriter :=
  let w' := WriteHeader StatusOK w in
  mkResponseWriter (header w') (status w') (sent w') (body w' +:+ b).

End http.

Module userController.

Record t (S : Type) : Type := mk { service : S }.
Arguments mk {S} _.
Arguments service {S} _.

(** The request only supplies the context. *)
Definition GetAll {S} `{UserService.t S} (uc : t S)
    (w : http.ResponseWriter) : M http.ResponseWriter :=
  '(users, err) ← UserService.GetAll (service uc);
  match err with
  | Some e =>
    _ ← log_Print ("ошибка получения юзеров: " +:+ Error e +:+ LF);
    mret (http.Write (Error e)
            (http.WriteHeader http.StatusInternalServerError w))
  | None =>
    let w := http.Header_Set "Content-Type" "application/json" w in
    match Json.Encode (UsersV users) with
    | inl e =>
      _ ← log_Print ("ошибка кодирования ответа: " +:+ Error e +:+ LF);
      mret (http.Write (Error e)
              (http.WriteHeader http.StatusInternalServerError w))
    | inr data =>
      let w := http.Write data w in
      _ ← log_Print ("все юзеры получены" +:+ LF);
      mret w
    end
  end.

(** The text sent with a 400 is that of the decoding error, for which
    [Error] has one fixed text. *)
Definition Create {S} `{UserService.t S} (uc : t S)
    (w : http.ResponseWriter) (r : http.Request) : M http.ResponseWriter :=
  match Json.DecodeUser (http.Body r) with
  | inl e =>
    _ ← log_Print ("ошибка декодирования тела запроса: " +:+ Error e +:+ LF);
    mret (http.Write (Error e) (http.WriteHeader http.StatusBadRequest w))
  | inr user =>
    '(id, err) ← UserService.Create (service uc) user;
    match err with
    | Some e =>
      _ ← log_Print ("ошибка создания юзера: " +:+ Error e +:+ LF);
      mret (http.Write (Error e)
              (http.WriteHeader http.StatusInternalServerError w))
    | None =>
      _ ← log_Print ("новый юзер создан c id: " +:+ pretty id +:+ LF);
      mret (http.Write (pretty id) (http.WriteHeader http.StatusCreated w))
    end
  end.

End userController.

Definition NewUserController {S} `{UserService.t S} (service : S)
    : userController.t S :=
  userController.mk service.

(** ** main: the objects as [main] wires them *)

Definition theUserDb : userDb.t := userDb.mk "users".
Definition theRepo : userRepo.t userDb.t := NewUserRepo theUserDb.
Definition theProxyRepo : proxyUserRepo.t (userRepo.t userDb.t) cache.t :=
  NewProxyUserRepo theRepo NewCache.
Definition theService := NewUserService theProxyRepo.
Definition theController := NewUserController theService.

(** ** The environment between two calls

    Time passes and the fault schedules of the two servers are whatever
    the network and the disk will do next; nothing else changes. *)
Definition elapse (dt : Z) (fs fr : list (option string)) (w : world) : world :=
  mkWorld
    (Sqlite.mkDb (Sqlite.tables (sqlite w)) fs (Sqlite.history (sqlite w)))
    (Redis.mkServer (Redis.store (redis w)) (Redis.now (redis w) + dt) fr
                    (Redis.history (redis w)))
    (logs w).

(** The next call on the handle reaches the server. *)
Definition answers (faults : list (option string)) : Prop :=
  head faults = None \/ head faults = Some None.

(** ** The failure taxonomy of the specification

    The five kinds of its section 7, read off the root cause of an
    error. *)

Inductive failure : Type :=
| ValidationFailure
| ConstraintViolation
| DecodeFailure
| NotFound
| IOFailure.

Definition errUnderage : error := ErrNew "возраст пользователя меньше 18 лет".

Definition classify (e : error) : failure :=
  match root_cause e with
  | ErrNew msg =>
    if decide (ErrNew msg = errUnderage) then ValidationFailure else NotFound
  | ErrSqliteUnique _ _ => ConstraintViolation
  | ErrRedisNil => NotFound
  | ErrJsonUnsupportedType _ | ErrJsonDecode => DecodeFailure
  | _ => IOFailure
  end.

(** The user [u] as the store records it under the identifier [id]. *)
Definition stored (id : Z) (u : User) : User :=
  mkUser id (Name u) (Password u) (Email u) (Age u).

(** The rows of the table main.go works on. *)
Definition users_rows (w : world) : list Sqlite.row :=
  match Sqlite.tables (sqlite w) !! "users" with
  | Some t => Sqlite.rows t
  | None => []
  end.

(** A fresh process: the database file and the redis server are empty. *)
Definition world0 : world :=
  mkWorld (Sqlite.mkDb ∅ [] []) (Redis.mkServer ∅ 0 [] []) [].

(** ** Example worlds *)

Definition al : User := mkUser 0 "Al" "x" "a@x.com" 21.
Definition bo : User := mkUser 0 "Bo" "y" "a@x.com" 25.

(** After [NewUserDB]: the table exists and is empty. *)
Definition world1 : world := snd (NewUserDB world0).
(** After registering Al. *)
Definition world2 : world := snd (userService.Create theService al world1).
(** After listing once: the key [users] is cached. *)
Definition world3 : world := snd (userService.GetAll theService world2).

(** ** Runs of the service

    What can happen to the world once [main] has set the service up: a
    [Create] request, a [GetAll] request, or the environment moving on. *)
Inductive step : world -> world -> Prop :=
| step_Create (u : User) (w : world) :
    step w (snd (userService.Create theService u w))
| step_GetAll (w : world) :
    step w (snd (userService.GetAll theService w))
| step_elapse (dt : Z) (fs fr : list (option string)) (w : world) :
    0 <= dt -> step w (elapse dt fs fr w).

(** The worlds a process can be in: it starts on an empty database,
    [NewUserDB] succeeds, and requests are served from there. *)
Inductive reachable : world -> Prop :=
| reachable_boot (w0 : world) (u : userDb.t) :
    Sqlite.tables (sqlite w0) = ∅ ->
    fst (NewUserDB w0) = Some u ->
    reachable (snd (NewUserDB w0))
| reachable_step (w w' : world) :
    reachable w -> step w w' -> reachable w'.

(** Every row of every table carries an age of at least 18. *)
Definition adults_only (w : world) : Prop :=
  forall name t, Sqlite.tables (sqlite w) !! name = Some t ->
    Forall (fun r => 18 <= Sqlite.c_age r) (Sqlite.rows t).

(** The email is that of a row of the table [users]. *)
Definition email_registered (email : string) (w : world) : Prop :=
  Sqlite.email_taken email (users_rows w) = true.

(** What [Create] returns when the UNIQUE index on [email] objects. *)
Definition errDuplicate : error :=
  ErrWrap "failed to insert user" (ErrSqliteUnique "users" "email").

Definition kid : User := mkUser 0 "Bo" "y" "a@x.com" 17.

(** The redis server does not answer the next command. *)
Definition redis_down (msg : string) (w : world) : world :=
  elapse 0 (Sqlite.faults (sqlite w)) [Some msg] w.

Definition carl : User := mkUser 0 "Carl" "z" "c@x.com" 30.

(** After registering Carl while redis was unreachable: the key [users]
    still holds the list cached in [world3]. *)
Definition world4 : world :=
  snd (proxyUserRepo.Create theProxyRepo carl (redis_down "i/o timeout" world3)).

(** The store has become unavailable and the next read of the cache is
    lost, one second after [world3]. *)
Definition world3_cut_off : world :=
  elapse 1000000000 [Some "database is locked"] [Some "i/o timeout"] world3.

(** A listing from [world4] during which redis answers neither the read
    nor the write. *)
Definition world5 : world :=
  snd (proxyUserRepo.GetAll theProxyRepo
         (elapse 0 [] [Some "i/o timeout"; Some "i/o timeout"] world4)).

(** ** Vocabulary of the properties *)

(** The list is written to the cache in a form that reads back as the
    same list. *)
Definition roundtrips (users : slice User) : Prop :=
  match Json.Encode (UsersV users) with
  | inr data => Json.DecodeUsers data = inr users
  | inl _ => False
  end.

(** The body is a JSON array of user objects. *)
Definition is_user_array (body : string) : Prop :=
  exists l, body = Json.render (Json.Arr (map Json.marshalUser l)) +:+ LF.

(** ** Vocabulary of the layers and of the codec *)

(** The row an INSERT of [u] writes under [id]. *)
Definition row_of (id : Z) (u : User) : Sqlite.row :=
  Sqlite.mkRow id (Name u) (Password u) (Email u) (Age u).

(** The list [GetAll] makes of the rows: nil for none. *)
Definition listing (rows : list Sqlite.row) : slice User :=
  match rows with
  | [] => None
  | _ => Some (map userDb.Scan rows)
  end.

(** The bytes under which a list is cached. *)
Definition encoded (users : slice User) : string :=
  Json.render (Json.marshalUsers users) +:+ LF.

(** What [cache.Get] reports for a key that is absent or has expired. *)
Definition errNotFound (key : string) : error :=
  ErrNew ("key " +:+ key +:+ " not found").






(** Pushes the characters of a literal out of an append. *)
Ltac sapp :=
  repeat match goal with
         | |- context [String ?x ?a +:+ ?b] =>
           change (String x a +:+ b) with (String x (a +:+ b))
         | |- context [EmptyString +:+ ?b] => change (EmptyString +:+ b) with b
         end.

(** The digits of a positive number, most significant first. *)
Definition digits_of (x : N) : string := pretty_N_go x "".

(** Every character is a decimal digit. *)
Fixpoint all_digits (s : string) : bool :=
  match s with
  | EmptyString => true
  | String c r => Json.is_digit c && all_digits r
  end.

(** What may follow a number for it to be read as written: the comma
    and the closing brace of the encoder qualify. *)
Definition ends_number (rest : string) : Prop :=
  match rest with
  | String c _ =>
    Json.is_digit c = false
    /\ c <> "."%char /\ c <> "e"%char /\ c <> "E"%char
  | EmptyString => True
  end.

(** The string is a sequence of well-formed UTF-8 encodings, read with
    [Utf8.width] as the encoder reads it. *)
Fixpoint utf8_valid (fuel : nat) (s : string) : bool :=
  match s, fuel with
  | EmptyString, _ => true
  | String c r, S f =>
    if (byte_of c <? 128)%N then utf8_valid f r
    else match Utf8.width s with
         | Some n => utf8_valid f (drop_str n s)
         | None => false
         end
  | String _ _, O => false
  end.

(** [utf8.ValidString], with fuel the length of the string. *)
Definition well_encoded (s : string) : Prop :=
  utf8_valid (String.length s) s = true.

(** A sequence of [n] bytes that [Utf8.width] accepts at the head of any
    string. *)
Definition rune (p : string) (n : nat) : Prop :=
  String.length p = n
  /\ (2 <= n)%nat
  /\ forall Y, Utf8.width (p +:+ Y) = Some n
              /\ take_str n (p +:+ Y) = p
              /\ drop_str n (p +:+ Y) = Y.

(** A user as Go holds it: the numbers fit an [int] of 64 bits, the
    strings are well-formed UTF-8. *)
Definition user_ok (u : User) : Prop :=
  Json.int64_ok (Id u) = true /\ Json.int64_ok (Age u) = true
  /\ well_encoded (Name u) /\ well_encoded (Password u)
  /\ well_encoded (Email u).

(** Every user of the slice is such a user. *)
Definition users_ok (us : slice User) : Prop :=
  match us with
  | None => True
  | Some l => Forall user_ok l
  end.

(** The document reads back from its rendering with fuel [n] or more,
    whatever follows it that cannot continue a number. *)
Definition reads_back (j : Json.t) (n : nat) : Prop :=
  forall f rest, (n <= f)%nat -> ends_number rest ->
    Json.parse_value f (Json.render j +:+ rest) = Some (j, rest).

(** One member of an object, as [Json.render] writes it. *)
Definition member (kv : string * Json.t) : string :=
  Json.quote (fst kv) +:+ ":" +:+ Json.render (snd kv).

(** * Properties *)

(** ** What one call on a server can change *)

Lemma Sqlite_run_select name d :
  Sqlite.tables (snd (Sqlite.run (Sqlite.SelectAll name) d)) = Sqlite.tables d.
Proof.
  unfold Sqlite.run.
  destruct (Sqlite.faults d) as [|[msg|] rest]; simpl;
    destruct (Sqlite.tables d !! name); reflexivity.
Qed.

(** An INSERT fails and changes nothing, or appends its row to the table
    under the next rowid. *)
Lemma Sqlite_run_insert name n p e a d :
  let r := Sqlite.run (Sqlite.Insert name n p e a) d in
  (exists err, fst r = Sqlite.Failed err /\ Sqlite.tables (snd r) = Sqlite.tables d)
  \/ (exists t id,
        fst r = Sqlite.Done id
        /\ Sqlite.tables d !! name = Some t
        /\ Sqlite.email_taken e (Sqlite.rows t) = false
        /\ id = Z.max (Sqlite.seq t) (Sqlite.max_rowid (Sqlite.rows t)) + 1
        /\ Sqlite.tables (snd r)
           = <[name := Sqlite.mkTable (Sqlite.rows t ++ [Sqlite.mkRow id n p e a]) id]>
               (Sqlite.tables d)).
Proof.
  unfold Sqlite.run.
  destruct (Sqlite.faults d) as [|[msg|] rest]; simpl;
    try (left; eexists; split; reflexivity);
    (destruct (Sqlite.tables d !! name) as [t|] eqn:Ht; simpl;
     [destruct (Sqlite.email_taken e (Sqlite.rows t)) eqn:Hem; simpl|]);
    try (left; eexists; split; reflexivity);
    right; exists t; eexists; repeat split; auto.
Qed.

Lemma email_taken_app email l1 l2 :
  Sqlite.email_taken email (l1 ++ l2)
  = Sqlite.email_taken email l1 || Sqlite.email_taken email l2.
Proof. unfold Sqlite.email_taken. apply existsb_app. Qed.

Lemma Redis_run_now c s : Redis.now (snd (Redis.run c s)) = Redis.now s.
Proof.
  unfold Redis.run.
  destruct (Redis.faults s) as [|[msg|] rest]; simpl;
    destruct (Redis.apply c (Redis.now s) (Redis.store s)); reflexivity.
Qed.

Lemma Redis_run_faults c s :
  Redis.faults (snd (Redis.run c s)) = tail (Redis.faults s).
Proof.
  unfold Redis.run.
  destruct (Redis.faults s) as [|[msg|] rest]; simpl;
    destruct (Redis.apply c (Redis.now s) (Redis.store s)); reflexivity.
Qed.

Lemma Redis_run_get key s :
  Redis.store (snd (Redis.run (Redis.GET key) s)) = Redis.store s.
Proof.
  unfold Redis.run.
  destruct (Redis.faults s) as [|[msg|] rest]; simpl;
    destruct (Redis.lookup key (Redis.now s) (Redis.store s)); reflexivity.
Qed.

Lemma Redis_run_other_keys c key s :
  match c with
  | Redis.GET _ => True
  | Redis.SET k _ _ => k = key
  | Redis.DEL k => k = key
  end ->
  delete key (Redis.store (snd (Redis.run c s))) = delete key (Redis.store s).
Proof.
  intros Hkey. unfold Redis.run.
  destruct (Redis.faults s) as [|[msg|] rest]; simpl; try reflexivity;
    destruct c as [k|k v e|k]; simpl; subst;
    try (destruct (Redis.lookup k (Redis.now s) (Redis.store s)); reflexivity);
    try apply delete_insert_eq; try apply delete_delete_eq.
Qed.

Lemma lookup_deleted key t m : Redis.lookup key t (delete key m) = None.
Proof. unfold Redis.lookup. rewrite lookup_delete_eq. reflexivity. Qed.

Lemma lookup_Some_store key t m e :
  Redis.lookup key t m = Some e -> m !! key = Some e.
Proof.
  unfold Redis.lookup. destruct (m !! key) as [e'|]; [|discriminate].
  destruct (Redis.live t e'); [congruence|discriminate].
Qed.

(** ** Frame lemmas: which layer touches which part of the world *)

Lemma ExecContext_redis q w :
  redis (snd (ExecContext q w)) = redis w /\ logs (snd (ExecContext q w)) = logs w.
Proof. unfold ExecContext. destruct (Sqlite.run q (sqlite w)); auto. Qed.

Lemma redis_do_sqlite c w : sqlite (snd (redis_do c w)) = sqlite w.
Proof. unfold redis_do. destruct (Redis.run c (redis w)); auto. Qed.

Lemma userDb_Create_redis d u w :
  redis (snd (userDb.Create d u w)) = redis w
  /\ logs (snd (userDb.Create d u w)) = logs w.
Proof.
  unfold userDb.Create, mbind, M_bind.
  pose proof (ExecContext_redis
    (Sqlite.Insert (userDb.TableName d) (Name u) (Password u) (Email u) (Age u)) w)
    as Hframe.
  destruct (ExecContext _ w) as [[result err] w1]; simpl in *.
  destruct err; simpl; auto.
Qed.

Lemma userDb_GetAll_frame d w :
  let w' := snd (userDb.GetAll d w) in
  Sqlite.tables (sqlite w') = Sqlite.tables (sqlite w)
  /\ redis w' = redis w.
Proof.
  unfold userDb.GetAll, QueryContext, mbind, M_bind, mret, M_ret.
  pose proof (Sqlite_run_select (userDb.TableName d) (sqlite w)) as Ht.
  destruct (Sqlite.run _ (sqlite w)) as [a s]; simpl in *.
  destruct a; simpl; auto.
Qed.

Lemma cache_Get_frame c key w :
  let w' := snd (cache.Get c key w) in
  sqlite w' = sqlite w
  /\ Redis.store (redis w') = Redis.store (redis w)
  /\ Redis.now (redis w') = Redis.now (redis w).
Proof.
  unfold cache.Get, client_Get, redis_do, mbind, M_bind, mret, M_ret.
  pose proof (Redis_run_get key (redis w)) as Hs.
  pose proof (Redis_run_now (Redis.GET key) (redis w)) as Hn.
  destruct (Redis.run (Redis.GET key) (redis w)) as [r s]; simpl in *.
  destruct r; simpl; try case_decide; simpl; auto.
  destruct (Json.DecodeUsers val); simpl; auto.
Qed.

Lemma cache_Get_faults c key w :
  Redis.faults (redis (snd (cache.Get c key w))) = tail (Redis.faults (redis w)).
Proof.
  unfold cache.Get, client_Get, redis_do, mbind, M_bind, mret, M_ret.
  pose proof (Redis_run_faults (Redis.GET key) (redis w)) as Hf.
  destruct (Redis.run (Redis.GET key) (redis w)) as [r s]; simpl in *.
  destruct r; simpl; try case_decide; simpl; auto.
  destruct (Json.DecodeUsers val); simpl; auto.
Qed.

Lemma cache_Set_frame c key v w :
  let w' := snd (cache.Set_ c key v w) in
  sqlite w' = sqlite w
  /\ delete key (Redis.store (redis w')) = delete key (Redis.store (redis w))
  /\ Redis.now (redis w') = Redis.now (redis w).
Proof.
  unfold cache.Set_.
  destruct (cache.payload v) as [e|data]; simpl; [auto|].
  unfold client_Set, redis_do, mbind, M_bind, mret, M_ret.
  pose proof (Redis_run_other_keys (Redis.SET key data (cache.dataExpiration c))
                key (redis w) eq_refl) as Hs.
  pose proof (Redis_run_now (Redis.SET key data (cache.dataExpiration c))
                (redis w)) as Hn.
  destruct (Redis.run _ (redis w)) as [r s]; simpl in *.
  destruct r; simpl; auto.
Qed.

Lemma cache_Delete_frame c key w :
  sqlite (snd (cache.Delete c key w)) = sqlite w.
Proof.
  unfold cache.Delete, client_Del, mbind, M_bind, mret, M_ret.
  pose proof (redis_do_sqlite (Redis.DEL key) w) as Hf.
  destruct (redis_do _ w) as [r w1]; simpl in *.
  destruct r; simpl; auto.
Qed.

(** ** Persistence layer *)

Lemma scan_rows_some rows l :
  userDb.scan_rows rows (Some l) = Some (l ++ map userDb.Scan rows).
Proof.
  revert l. induction rows as [|r rows IH]; intros l; simpl.
  - rewrite app_nil_r. reflexivity.
  - rewrite IH, <- app_assoc. reflexivity.
Qed.

Lemma scan_rows_nil rows :
  userDb.scan_rows rows None
  = match rows with
    | [] => None
    | _ => Some (map userDb.Scan rows)
    end.
Proof. destruct rows as [|r rows]; simpl; [reflexivity|apply scan_rows_some]. Qed.

(** A listing that reaches the table returns its rows, scanned in order. *)
Lemma userDb_GetAll_ok name w t :
  Sqlite.tables (sqlite w) !! name = Some t ->
  answers (Sqlite.faults (sqlite w)) ->
  exists w',
    userDb.GetAll (userDb.mk name) w
    = ((userDb.scan_rows (Sqlite.rows t) None, None), w').
Proof.
  intros Ht Hans.
  unfold userDb.GetAll, QueryContext, Sqlite.run, mbind, M_bind, mret, M_ret.
  destruct Hans as [Hans|Hans];
    destruct (Sqlite.faults (sqlite w)) as [|[msg|] rest]; try discriminate;
    simpl; rewrite Ht; simpl; eexists; reflexivity.
Qed.

(** ** Cache wrapper *)

(** [Get] succeeds exactly on a live entry that decodes, read without a
    transport failure. *)
Lemma cache_Get_ok_inv c key w users w1 :
  cache.Get c key w = ((users, None), w1) ->
  answers (Redis.faults (redis w))
  /\ exists e,
       Redis.lookup key (Redis.now (redis w)) (Redis.store (redis w)) = Some e
       /\ Json.DecodeUsers (Redis.data e) = inr users.
Proof.
  unfold cache.Get, client_Get, redis_do, Redis.run, log_Print, mbind, M_bind, mret, M_ret.
  unfold answers.
  destruct (Redis.faults (redis w)) as [|[msg|] rest]; simpl;
    try (repeat case_decide; discriminate).
  all: destruct (Redis.lookup key _ _) as [e|] eqn:Hl; simpl;
    try (repeat case_decide; discriminate).
  all: destruct (Json.DecodeUsers (Redis.data e)) as [err|us] eqn:Hd; simpl;
    try discriminate.
  all: intros [= <- <-]; (split; [auto|]); exists e; auto.
Qed.

Lemma cache_Get_hit c key w e users :
  answers (Redis.faults (redis w)) ->
  Redis.lookup key (Redis.now (redis w)) (Redis.store (redis w)) = Some e ->
  Json.DecodeUsers (Redis.data e) = inr users ->
  exists w1, cache.Get c key w = ((users, None), w1).
Proof.
  intros Hans Hl Hd.
  unfold cache.Get, client_Get, redis_do, Redis.run, log_Print, mbind, M_bind, mret, M_ret.
  destruct Hans as [Hans|Hans];
    destruct (Redis.faults (redis w)) as [|[msg|] rest]; try discriminate;
    simpl; rewrite Hl; simpl; rewrite Hd; eexists; reflexivity.
Qed.

(** Storing a list of users never returns an error. *)
Lemma cache_Set_users c key users w :
  fst (cache.Set_ c key (UsersV users) w) = None.
Proof.
  unfold cache.Set_, cache.payload, Json.Encode. simpl.
  unfold client_Set, mbind, M_bind, mret, M_ret.
  destruct (redis_do _ w) as [r w1]. simpl.
  destruct r; reflexivity.
Qed.

(** A write that reaches the server leaves the payload under the key. *)
Lemma cache_Set_answered c key v data w :
  cache.payload v = inr data ->
  answers (Redis.faults (redis w)) ->
  exists d,
    Redis.store (redis (snd (cache.Set_ c key v w)))
    = <[key := Redis.mkEntry data d]> (Redis.store (redis w)).
Proof.
  intros Hp Hans. unfold cache.Set_. rewrite Hp.
  unfold client_Set, redis_do, Redis.run, mbind, M_bind, mret, M_ret.
  destruct Hans as [Hans|Hans];
    destruct (Redis.faults (redis w)) as [|[msg|] rest]; try discriminate;
    simpl; eexists; reflexivity.
Qed.

(** C7 (as amended). For every key, value and state: when the value has
    bytes to store (it is raw bytes, or it serializes, as every list of
    users does), [Set] returns no error, and the failure of the write,
    if there is one, is logged and nothing else is; when the value does
    not serialize, [Set] returns the encoding error to its caller and
    leaves the world, log included, as it was. *)
Theorem cache_set_outcome (c : cache.t) (key : string) (v : value) (w : world) :
  match cache.payload v with
  | inr data =>
    fst (cache.Set_ c key v w) = None
    /\ logs (snd (cache.Set_ c key v w))
       = logs w ++ match head (Redis.faults (redis w)) with
                   | Some (Some msg) => ["ошибка записи в кэш: " +:+ msg +:+ LF]
                   | _ => []
                   end
  | inl e =>
    cache.Set_ c key v w = (Some (ErrWrap "failed to encode value" e), w)
  end.
Proof.
  unfold cache.Set_.
  destruct (cache.payload v) as [e|data]; [reflexivity|].
  unfold client_Set, redis_do, Redis.run, log_Print, mbind, M_bind, mret, M_ret.
  destruct (Redis.faults (redis w)) as [|[msg|] rest]; simpl;
    rewrite ?app_nil_r; auto.
Qed.

(** C7 as stated fails: a value that encoding/json rejects makes [Set]
    return an error, and nothing is logged. *)
Lemma cache_set_counterexample :
  cache.Set_ NewCache "users" ChanV world1
  = (Some (ErrWrap "failed to encode value" (ErrJsonUnsupportedType "chan int")),
     world1)
  /\ logs world1 = [].
Proof. split; vm_compute; reflexivity. Qed.

(** ** Validation service *)

(** C2. For every user [u] with [u.age < 18], whatever repository the
    service wraps and whatever the state: [create] returns the validation
    error (a ValidationFailure of the taxonomy) and the world, hence the
    store with its rows and its call history, is exactly what it was. *)
Theorem service_create_underage {R} `{UserRepo.t R}
    (us : userService.t R) (u : User) (w : world) :
  Age u < 18 ->
  userService.Create us u w = ((0, Some errUnderage), w)
  /\ classify errUnderage = ValidationFailure.
Proof.
  intros Hage. split; [|reflexivity].
  unfold userService.Create.
  destruct (Z.ltb_spec (Age u) 18) as [_|Hge]; [reflexivity|lia].
Qed.

Lemma service_create_underage_witness :
  userService.Create theService (mkUser 0 "Al" "x" "a@x.com" 17) world0
  = ((0, Some errUnderage), world0)
  /\ classify errUnderage = ValidationFailure.
Proof.
  apply (service_create_underage theService (mkUser 0 "Al" "x" "a@x.com" 17) world0).
  simpl. lia.
Defined.

(** ** Caching repository *)

(** A hit ends [GetAll] on the spot, for any repository and any cache. *)
Lemma proxy_GetAll_hit {R C} `{UserRepo.t R} `{Cache.t C}
    (p : proxyUserRepo.t R C) w users w1 :
  Cache.Get (proxyUserRepo.cache p) "users" w = ((users, None), w1) ->
  proxyUserRepo.GetAll p w = ((users, None), w1).
Proof.
  intros Hget. unfold proxyUserRepo.GetAll, mbind, M_bind.
  rewrite Hget. reflexivity.
Qed.

(** C4. In every state in which [cache.Get("users")] returns a decoded
    value and no error, [GetAll] of the caching repository returns that
    value and leaves the world as the cache read left it, whatever the
    wrapped repository is (none of its methods can have run); the
    database, call history included, is the one before the call. *)
Theorem proxy_getall_cache_wins {R} `{UserRepo.t R}
    (repo : R) (c : cache.t) (w w1 : world) (users : slice User) :
  cache.Get c "users" w = ((users, None), w1) ->
  proxyUserRepo.GetAll (NewProxyUserRepo repo c) w = ((users, None), w1)
  /\ sqlite w1 = sqlite w.
Proof.
  intros Hget. split.
  - apply proxy_GetAll_hit. exact Hget.
  - pose proof (cache_Get_frame c "users" w) as (Hframe & _ & _).
    rewrite Hget in Hframe. exact Hframe.
Qed.

Lemma proxy_getall_cache_wins_witness :
  let r := cache.Get NewCache "users" world3 in
  r = ((Some [stored 1 al], None), snd r)
  /\ proxyUserRepo.GetAll (NewProxyUserRepo theRepo NewCache) world3
     = ((Some [stored 1 al], None), snd r)
  /\ sqlite (snd r) = sqlite world3.
Proof.
  split; [vm_compute; reflexivity|].
  apply (proxy_getall_cache_wins theRepo NewCache world3).
  vm_compute. reflexivity.
Defined.

(** C6. For every user and every state, if the store's [Create] fails,
    [Create] of the caching repository returns that same error and the
    world is the one the store call left, whatever the cache is (none of
    its methods can have run); the redis server, with its keys and its
    command history, is the one before the call. *)
Theorem proxy_create_store_failure {C} `{Cache.t C}
    (db : userDb.t) (c : C) (u : User) (w w1 : world) (id : Z) (e : error) :
  UserRepo.Create (NewUserRepo db) u w = ((id, Some e), w1) ->
  proxyUserRepo.Create (NewProxyUserRepo (NewUserRepo db) c) u w
  = ((0, Some e), w1)
  /\ redis w1 = redis w.
Proof.
  intros Hcreate. split.
  - unfold proxyUserRepo.Create, mbind, M_bind. simpl proxyUserRepo.repo.
    rewrite Hcreate. reflexivity.
  - pose proof (userDb_Create_redis db u w) as [Hframe _].
    simpl in Hcreate. unfold userRepo.Create in Hcreate. simpl in Hcreate.
    rewrite Hcreate in Hframe. exact Hframe.
Qed.

Lemma proxy_create_store_failure_witness :
  let r := UserRepo.Create theRepo bo world2 in
  r = ((0, Some (ErrWrap "failed to insert user"
                   (ErrSqliteUnique "users" "email"))), snd r)
  /\ proxyUserRepo.Create (NewProxyUserRepo theRepo NewCache) bo world2
     = ((0, Some (ErrWrap "failed to insert user"
                    (ErrSqliteUnique "users" "email"))), snd r)
  /\ redis (snd r) = redis world2.
Proof.
  split; [vm_compute; reflexivity|].
  apply (proxy_create_store_failure theUserDb NewCache bo world2 _ 0).
  vm_compute. reflexivity.
Defined.

(** C10. For every state, [GetAll] of the caching repository leaves the
    tables of the store as they were; in the cache no key other than
    [users] changes, and the clock of the server is not touched. *)
Theorem proxy_getall_frame (db : userDb.t) (c : cache.t) (w : world) :
  let w' := snd (proxyUserRepo.GetAll (NewProxyUserRepo (NewUserRepo db) c) w) in
  Sqlite.tables (sqlite w') = Sqlite.tables (sqlite w)
  /\ delete "users" (Redis.store (redis w'))
     = delete "users" (Redis.store (redis w))
  /\ Redis.now (redis w') = Redis.now (redis w).
Proof.
  unfold proxyUserRepo.GetAll, mbind, M_bind, mret, M_ret. simpl.
  pose proof (cache_Get_frame c "users" w) as (Hg1 & Hg2 & Hg3).
  destruct (cache.Get c "users" w) as [[users err] w1]; simpl in *.
  destruct err as [e|]; simpl.
  - unfold userRepo.GetAll; simpl.
    pose proof (userDb_GetAll_frame db w1) as (Hd1 & Hd2).
    destruct (userDb.GetAll db w1) as [[users' err'] w2]; simpl in *.
    destruct err' as [e'|]; simpl.
    + rewrite Hd1, Hd2, Hg1, Hg2, Hg3. auto.
    + pose proof (cache_Set_frame c "users" (UsersV users') w2) as (Hs1 & Hs2 & Hs3).
      destruct (cache.Set_ c "users" (UsersV users') w2) as [err2 w3]; simpl in *.
      destruct err2; simpl; rewrite ?Hs1, ?Hs2, ?Hs3, ?Hd1, ?Hd2, ?Hg1, ?Hg2, ?Hg3; auto.
  - rewrite Hg1, Hg2, Hg3. auto.
Qed.

(** A successful [Create] of the caching repository: the table gained the
    row of [u] under the returned identifier, and the key [users] is gone
    from the cache if the DEL reached the server. *)
Lemma proxy_Create_ok u w id w1 :
  proxyUserRepo.Create theProxyRepo u w = ((id, None), w1) ->
  (exists t,
     Sqlite.tables (sqlite w) !! "users" = Some t
     /\ Sqlite.tables (sqlite w1)
        = <["users" := Sqlite.mkTable
              (Sqlite.rows t ++ [Sqlite.mkRow id (Name u) (Password u) (Email u) (Age u)])
              id]> (Sqlite.tables (sqlite w)))
  /\ (answers (Redis.faults (redis w)) ->
      Redis.store (redis w1) = delete "users" (Redis.store (redis w))).
Proof.
  unfold proxyUserRepo.Create, mbind, M_bind, mret, M_ret. simpl.
  unfold userRepo.Create. simpl.
  unfold userDb.Create, ExecContext, mbind, M_bind, mret, M_ret. simpl.
  pose proof (Sqlite_run_insert "users" (Name u) (Password u) (Email u) (Age u) (sqlite w)) as Hrun.
  destruct (Sqlite.run _ (sqlite w)) as [a d]; simpl in *.
  destruct Hrun as [(err & -> & Ht)|(t & id' & -> & Ht & _ & _ & Ht')]; simpl;
    [discriminate|].
  unfold cache.Delete, client_Del, redis_do, Redis.run, log_Print, mbind, M_bind, mret, M_ret.
  simpl.
  destruct (Redis.faults (redis w)) as [|[msg|] rest]; simpl;
    intros [= <- <-]; simpl; (split; [exists t; split; [exact Ht|exact Ht']|]);
    intros [Hans|Hans]; try discriminate; reflexivity.
Qed.

(** A miss that reaches the database: [GetAll] returns the rows of the
    table, scanned in order. *)
Lemma proxy_GetAll_miss w t :
  Sqlite.tables (sqlite w) !! "users" = Some t ->
  answers (Sqlite.faults (sqlite w)) ->
  Redis.lookup "users" (Redis.now (redis w)) (Redis.store (redis w)) = None ->
  exists w',
    proxyUserRepo.GetAll theProxyRepo w
    = ((userDb.scan_rows (Sqlite.rows t) None, None), w').
Proof.
  intros Ht Hans Hmiss.
  unfold proxyUserRepo.GetAll, mbind, M_bind, mret, M_ret. simpl.
  pose proof (cache_Get_ok_inv NewCache "users" w) as Hinv.
  pose proof (cache_Get_frame NewCache "users" w) as (Hsq & _ & _).
  destruct (cache.Get NewCache "users" w) as [[users err] w1]; simpl in *.
  destruct err as [err|].
  - unfold userRepo.GetAll; simpl.
    rewrite <- Hsq in Ht, Hans.
    destruct (userDb_GetAll_ok "users" w1 t Ht Hans) as (w2 & Hdb).
    change (userDb.GetAll theUserDb w1) with (userDb.GetAll (userDb.mk "users") w1).
    rewrite Hdb. simpl.
    pose proof (cache_Set_users NewCache "users"
                  (userDb.scan_rows (Sqlite.rows t) None) w2) as Hset.
    destruct (cache.Set_ _ _ _ w2) as [err2 w3]. simpl in Hset. subst err2.
    eexists. reflexivity.
  - destruct (Hinv users w1 eq_refl) as (_ & e & Hl & _). congruence.
Qed.

(** C1 (as amended). For every state and every user [u]: if [Create]
    through the caching repository succeeds with identifier [id] and its
    DEL of the key [users] reached the redis server, then, however much
    time passes and whatever redis does next, a [GetAll] whose query
    reaches the database returns a non-nil list that contains [u] as
    stored under [id], also when an earlier [GetAll] had cached the old
    list. *)
Theorem create_then_list (u : User) (w w1 : world) (id dt : Z)
    (fs fr : list (option string)) :
  proxyUserRepo.Create theProxyRepo u w = ((id, None), w1) ->
  answers (Redis.faults (redis w)) ->
  answers fs ->
  exists users w2,
    proxyUserRepo.GetAll theProxyRepo (elapse dt fs fr w1)
    = ((Some users, None), w2)
    /\ In (stored id u) users.
Proof.
  intros Hcreate Hdel Hfs.
  destruct (proxy_Create_ok u w id w1 Hcreate) as [(t & Ht & Ht1) Hstore].
  specialize (Hstore Hdel).
  destruct (proxy_GetAll_miss (elapse dt fs fr w1)
              (Sqlite.mkTable
                 (Sqlite.rows t ++ [Sqlite.mkRow id (Name u) (Password u) (Email u) (Age u)])
                 id))
    as (w2 & Hget).
  - simpl. rewrite Ht1. apply lookup_insert_eq.
  - exact Hfs.
  - simpl. rewrite Hstore. apply lookup_deleted.
  - rewrite scan_rows_nil in Hget. simpl in Hget.
    destruct (Sqlite.rows t ++ _) as [|r rows] eqn:Hrows.
    { destruct (Sqlite.rows t); discriminate. }
    rewrite <- Hrows in Hget.
    eexists. exists w2. split; [exact Hget|].
    rewrite map_app. apply in_or_app. right. left. reflexivity.
Qed.

Lemma create_then_list_witness :
  exists users w2,
    proxyUserRepo.GetAll theProxyRepo
      (elapse 1000 [] [] (snd (proxyUserRepo.Create theProxyRepo carl world3)))
    = ((Some users, None), w2)
    /\ In (stored 2 carl) users.
Proof.
  apply (create_then_list carl world3
           (snd (proxyUserRepo.Create theProxyRepo carl world3)) 2 1000 [] []).
  - vm_compute. reflexivity.
  - left. reflexivity.
  - left. reflexivity.
Defined.

(** C1 as stated fails.  Carl is registered while the DEL is lost: the
    next [GetAll] still serves the list cached before, without Carl.
    And after a successful [Create] a [GetAll] that finds the database
    unavailable returns no list at all. *)
Lemma create_then_list_counterexample :
  proxyUserRepo.Create theProxyRepo carl (redis_down "i/o timeout" world3)
  = ((2, None), world4)
  /\ fst (proxyUserRepo.GetAll theProxyRepo world4) = (Some [stored 1 al], None)
  /\ ~ In (stored 2 carl) [stored 1 al]
  /\ proxyUserRepo.Create theProxyRepo al world1 = ((1, None), world2)
  /\ fst (proxyUserRepo.GetAll theProxyRepo
            (elapse 0 [Some "database is locked"] [] world2))
     = (None, Some (ErrWrap "failed to get all users"
                      (ErrSqlDriver "database is locked"))).
Proof.
  split; [vm_compute; reflexivity|].
  split; [vm_compute; reflexivity|].
  split; [|split; vm_compute; reflexivity].
  intros [H|[]]. discriminate H.
Qed.

(** After a listing during which redis answered, whatever sits under the
    key [users] decodes to the list that was returned. *)
Lemma proxy_GetAll_leaves_cache w users w1 :
  proxyUserRepo.GetAll theProxyRepo w = ((users, None), w1) ->
  answers (Redis.faults (redis w)) ->
  answers (tail (Redis.faults (redis w))) ->
  roundtrips users ->
  forall e, Redis.store (redis w1) !! "users" = Some e ->
    Json.DecodeUsers (Redis.data e) = inr users.
Proof.
  intros Hget Ha1 Ha2 Hrt e He.
  unfold proxyUserRepo.GetAll, mbind, M_bind, mret, M_ret in Hget. simpl in Hget.
  pose proof (cache_Get_ok_inv NewCache "users" w) as Hinv.
  pose proof (cache_Get_frame NewCache "users" w) as (_ & Hstore & _).
  pose proof (cache_Get_faults NewCache "users" w) as Hfaults.
  destruct (cache.Get NewCache "users" w) as [[us err] wa]; simpl in *.
  destruct err as [err|].
  - unfold userRepo.GetAll in Hget; simpl in Hget.
    pose proof (userDb_GetAll_frame theUserDb wa) as (_ & Hredis).
    destruct (userDb.GetAll theUserDb wa) as [[us' err'] wb]; simpl in *.
    destruct err' as [err'|]; [discriminate|].
    assert (Hans : answers (Redis.faults (redis wb)))
      by (rewrite Hredis, Hfaults; exact Ha2).
    destruct (cache_Set_answered NewCache "users" (UsersV us')
                (Json.render (Json.marshalUsers us') +:+ LF) wb eq_refl Hans)
      as (d & Hset).
    destruct (cache.Set_ NewCache "users" (UsersV us') wb) as [err2 wc];
      simpl in *.
    assert (us' = users /\ redis w1 = redis wc) as [-> Hw1].
    { destruct err2; unfold log_Print in Hget; simpl in Hget;
        inversion Hget; subst; auto. }
    rewrite Hw1, Hset, lookup_insert_eq in He. injection He as <-. simpl.
    exact Hrt.
  - injection Hget as -> ->.
    destruct (Hinv users w1 eq_refl) as (_ & e0 & Hl & Hd).
    apply lookup_Some_store in Hl. rewrite Hstore in He.
    rewrite Hl in He. injection He as <-. exact Hd.
Qed.

(** C3 (as amended). Let a first [GetAll] return [users] with redis
    answering its read and, on a miss, its write, and let [users] be a
    list that reads back from its encoding.  If then, with no call in
    between, the entry under [users] has not expired when a second
    [GetAll] is made and redis answers its read, the second [GetAll]
    returns the same [users] and leaves the database, call history
    included, untouched, whatever the database would have answered. *)
Theorem repeated_list_served_from_cache (w w1 : world) (users : slice User)
    (dt : Z) (fs fr : list (option string)) :
  proxyUserRepo.GetAll theProxyRepo w = ((users, None), w1) ->
  answers (Redis.faults (redis w)) ->
  answers (tail (Redis.faults (redis w))) ->
  roundtrips users ->
  is_Some (Redis.lookup "users" (Redis.now (redis w1) + dt)
             (Redis.store (redis w1))) ->
  answers fr ->
  exists w2,
    proxyUserRepo.GetAll theProxyRepo (elapse dt fs fr w1) = ((users, None), w2)
    /\ sqlite w2 = sqlite (elapse dt fs fr w1).
Proof.
  intros Hfirst Ha1 Ha2 Hrt [e Hlive] Hfr.
  pose proof (proxy_GetAll_leaves_cache w users w1 Hfirst Ha1 Ha2 Hrt e
                (lookup_Some_store _ _ _ _ Hlive)) as Hdec.
  destruct (cache_Get_hit NewCache "users" (elapse dt fs fr w1) e users)
    as (w2 & Hhit); [exact Hfr|exact Hlive|exact Hdec|].
  exists w2. split.
  - apply (proxy_GetAll_hit theProxyRepo). exact Hhit.
  - pose proof (cache_Get_frame NewCache "users" (elapse dt fs fr w1))
      as (Hsq & _ & _).
    rewrite Hhit in Hsq. exact Hsq.
Qed.

Lemma repeated_list_served_from_cache_witness :
  exists w2,
    proxyUserRepo.GetAll theProxyRepo
      (elapse 1000000000 [Some "database is locked"] [] world3)
    = ((Some [stored 1 al], None), w2)
    /\ sqlite w2
       = sqlite (elapse 1000000000 [Some "database is locked"] [] world3).
Proof.
  apply (repeated_list_served_from_cache world2 world3 (Some [stored 1 al])
           1000000000 [Some "database is locked"] []).
  - vm_compute. reflexivity.
  - left. reflexivity.
  - left. reflexivity.
  - vm_compute. reflexivity.
  - vm_compute. eexists. reflexivity.
  - left. reflexivity.
Defined.

(** C3 as stated fails.  First run: the list is cached and has not
    expired, the store becomes unavailable, and the read of the cache is
    lost: the second [GetAll] fails.  Second run: the cache holds a stale
    list; a first [GetAll] reaches redis neither for its read nor for its
    write and returns the rows of the store; the second one is answered
    from the cache with a different list. *)
Lemma repeated_list_counterexample :
  (proxyUserRepo.GetAll theProxyRepo world2 = ((Some [stored 1 al], None), world3)
   /\ roundtrips (Some [stored 1 al])
   /\ is_Some (Redis.lookup "users" (Redis.now (redis world3_cut_off))
                 (Redis.store (redis world3_cut_off)))
   /\ fst (proxyUserRepo.GetAll theProxyRepo world3_cut_off)
      = (None, Some (ErrWrap "failed to get all users"
                       (ErrSqlDriver "database is locked"))))
  /\ (proxyUserRepo.GetAll theProxyRepo
        (elapse 0 [] [Some "i/o timeout"; Some "i/o timeout"] world4)
      = ((Some [stored 1 al; stored 2 carl], None), world5)
      /\ roundtrips (Some [stored 1 al; stored 2 carl])
      /\ is_Some (Redis.lookup "users" (Redis.now (redis world5))
                    (Redis.store (redis world5)))
      /\ fst (proxyUserRepo.GetAll theProxyRepo world5)
         = (Some [stored 1 al], None)
      /\ ~ Permutation [stored 1 al; stored 2 carl] [stored 1 al]).
Proof.
  split; repeat split; try (vm_compute; reflexivity);
    try (vm_compute; eexists; reflexivity).
  intros Hperm. apply Permutation_length in Hperm. discriminate Hperm.
Qed.

(** ** Runs of the service *)

(** What [Create] through the whole stack does to the tables: nothing, or
    one more row in [users] carrying the fields of an adult [u]. *)
Lemma service_Create_tables u w :
  let r := userService.Create theService u w in
  Sqlite.tables (sqlite (snd r)) = Sqlite.tables (sqlite w)
  \/ (18 <= Age u
      /\ exists t id,
           Sqlite.tables (sqlite w) !! "users" = Some t
           /\ Sqlite.tables (sqlite (snd r))
              = <["users" := Sqlite.mkTable
                    (Sqlite.rows t ++ [Sqlite.mkRow id (Name u) (Password u) (Email u) (Age u)])
                    id]> (Sqlite.tables (sqlite w))).
Proof.
  unfold userService.Create.
  destruct (Z.ltb_spec (Age u) 18) as [Hlt|Hge]; [left; reflexivity|].
  simpl. unfold proxyUserRepo.Create, mbind, M_bind, mret, M_ret. simpl.
  unfold userRepo.Create. simpl.
  unfold userDb.Create, ExecContext, mbind, M_bind, mret, M_ret. simpl.
  pose proof (Sqlite_run_insert "users" (Name u) (Password u) (Email u) (Age u) (sqlite w)) as Hrun.
  destruct (Sqlite.run _ (sqlite w)) as [a d]; simpl in *.
  destruct Hrun as [(err & -> & Ht)|(t & id & -> & Ht & _ & _ & Ht')]; simpl.
  - left. exact Ht.
  - right. split; [exact Hge|]. exists t, id. split; [exact Ht|].
    match goal with |- context [cache.Delete ?c ?k ?w0] =>
      pose proof (cache_Delete_frame c k w0) as Hd;
      destruct (cache.Delete c k w0) as [err w2] end.
    simpl in *. destruct err; simpl; rewrite Hd; exact Ht'.
Qed.

(** A listing through the caching repository leaves the tables alone. *)
Lemma proxy_GetAll_tables (db : userDb.t) (c : cache.t) (w : world) :
  Sqlite.tables
    (sqlite (snd (proxyUserRepo.GetAll (NewProxyUserRepo (NewUserRepo db) c) w)))
  = Sqlite.tables (sqlite w).
Proof.
  unfold proxyUserRepo.GetAll, mbind, M_bind, mret, M_ret. simpl.
  pose proof (cache_Get_frame c "users" w) as (Hg1 & _).
  destruct (cache.Get c "users" w) as [[users err] w1]; simpl in *.
  destruct err as [e|]; simpl; [|rewrite Hg1; reflexivity].
  unfold userRepo.GetAll; simpl.
  pose proof (userDb_GetAll_frame db w1) as (Hd1 & _).
  destruct (userDb.GetAll db w1) as [[users' err'] w2]; simpl in *.
  destruct err' as [e'|]; simpl; [rewrite Hd1, Hg1; reflexivity|].
  pose proof (cache_Set_frame c "users" (UsersV users') w2) as (Hs1 & _).
  destruct (cache.Set_ c "users" (UsersV users') w2) as [err2 w3]; simpl in *.
  destruct err2; simpl; rewrite Hs1, Hd1, Hg1; reflexivity.
Qed.

Lemma service_GetAll_tables w :
  Sqlite.tables (sqlite (snd (userService.GetAll theService w)))
  = Sqlite.tables (sqlite w).
Proof. apply (proxy_GetAll_tables theUserDb NewCache w). Qed.

(** A step leaves the tables alone or appends one adult to [users]. *)
Lemma step_tables w w' :
  step w w' ->
  Sqlite.tables (sqlite w') = Sqlite.tables (sqlite w)
  \/ exists u t id,
       18 <= Age u
       /\ Sqlite.tables (sqlite w) !! "users" = Some t
       /\ Sqlite.tables (sqlite w')
          = <["users" := Sqlite.mkTable
                (Sqlite.rows t ++ [Sqlite.mkRow id (Name u) (Password u) (Email u) (Age u)])
                id]> (Sqlite.tables (sqlite w)).
Proof.
  destruct 1 as [u w|w|dt fs fr w Hdt].
  - destruct (service_Create_tables u w) as [Hsame|(Hage & t & id & Ht & Ht')].
    + left. exact Hsame.
    + right. exists u, t, id. auto.
  - left. apply service_GetAll_tables.
  - left. reflexivity.
Qed.

(** [NewUserDB] on an empty database leaves no row behind. *)
Lemma NewUserDB_tables w0 :
  Sqlite.tables (sqlite w0) = ∅ ->
  forall name t, Sqlite.tables (sqlite (snd (NewUserDB w0))) !! name = Some t ->
    Sqlite.rows t = [].
Proof.
  intros Hempty name t.
  unfold NewUserDB, userDb.Migrate, ExecContext, Sqlite.run, mbind, M_bind, mret, M_ret.
  simpl.
  destruct (Sqlite.faults (sqlite w0)) as [|[msg|] rest]; simpl;
    rewrite Hempty; rewrite ?lookup_empty; simpl.
  all: try discriminate.
  all: destruct (decide (name = "users")) as [->|Hne].
  all: try (rewrite lookup_insert_eq; intros [= <-]; reflexivity).
  all: rewrite lookup_insert_ne by congruence; rewrite lookup_empty; discriminate.
Qed.

(** C9. In every world the process can reach from an empty database
    through [Create] and [GetAll] of the validation service, every row of
    the store carries an age of at least 18 ([step_tables]: a step adds
    at most one row, and that row is an adult's). *)
Theorem stored_users_are_adults (w : world) :
  reachable w -> adults_only w.
Proof.
  induction 1 as [w0 u Hempty Hok|w w' Hreach IH Hstep].
  - intros name t Ht.
    rewrite (NewUserDB_tables w0 Hempty name t Ht). constructor.
  - intros name t' Ht'.
    destruct (step_tables w w' Hstep) as [Hsame|(u & t & id & Hage & Ht & Hnew)].
    + rewrite Hsame in Ht'. exact (IH name t' Ht').
    + rewrite Hnew in Ht'.
      destruct (decide (name = "users")) as [->|Hne].
      * rewrite lookup_insert_eq in Ht'. injection Ht' as <-. simpl.
        apply Forall_app. split; [exact (IH "users" t Ht)|].
        constructor; [exact Hage|constructor].
      * rewrite lookup_insert_ne in Ht' by congruence. exact (IH name t' Ht').
Qed.

Lemma stored_users_are_adults_witness : adults_only world3.
Proof.
  apply (stored_users_are_adults world3).
  unfold world3. apply (reachable_step world2); [|apply step_GetAll].
  unfold world2. apply (reachable_step world1); [|apply step_Create].
  unfold world1. apply (reachable_boot world0 theUserDb); reflexivity.
Defined.

(** A successful [Create] is that of an adult and registers the email. *)
Lemma service_Create_ok_registers u w id w1 :
  userService.Create theService u w = ((id, None), w1) ->
  18 <= Age u /\ email_registered (Email u) w1.
Proof.
  unfold userService.Create.
  destruct (Z.ltb_spec (Age u) 18) as [Hlt|Hge]; [discriminate|].
  simpl. unfold proxyUserRepo.Create, mbind, M_bind, mret, M_ret. simpl.
  unfold userRepo.Create. simpl.
  unfold userDb.Create, ExecContext, mbind, M_bind, mret, M_ret. simpl.
  pose proof (Sqlite_run_insert "users" (Name u) (Password u) (Email u) (Age u) (sqlite w)) as Hrun.
  destruct (Sqlite.run _ (sqlite w)) as [a d]; simpl in *.
  destruct Hrun as [(err & -> & Ht)|(t & id' & -> & Ht & _ & _ & Ht')]; simpl.
  - discriminate.
  - match goal with |- context [cache.Delete ?c ?k ?w0] =>
      pose proof (cache_Delete_frame c k w0) as Hd;
      destruct (cache.Delete c k w0) as [err w2] end.
    simpl in *. intros Heq. split; [exact Hge|].
    assert (sqlite w1 = d) as Hw1
      by (destruct err; unfold log_Print in Heq; simpl in Heq;
          inversion Heq; subst; reflexivity).
    unfold email_registered, users_rows. rewrite Hw1, Ht', lookup_insert_eq. simpl.
    rewrite email_taken_app. simpl. rewrite String.eqb_refl.
    rewrite orb_true_r. reflexivity.
Qed.

Lemma step_keeps_email email w w' :
  step w w' -> email_registered email w -> email_registered email w'.
Proof.
  intros Hstep Hreg. unfold email_registered, users_rows in *.
  destruct (step_tables w w' Hstep) as [Hsame|(u & t & id & _ & Ht & Hnew)].
  - rewrite Hsame. exact Hreg.
  - rewrite Hnew, lookup_insert_eq. rewrite Ht in Hreg. simpl.
    rewrite email_taken_app, Hreg. reflexivity.
Qed.

Lemma steps_keep_email email w w' :
  rtc step w w' -> email_registered email w -> email_registered email w'.
Proof.
  induction 1 as [w|w w1 w2 Hstep _ IH]; [auto|].
  intros Hreg. apply IH. exact (step_keeps_email email w w1 Hstep Hreg).
Qed.

(** An adult with a registered email is refused by the UNIQUE index. *)
Lemma service_Create_duplicate u w :
  18 <= Age u ->
  email_registered (Email u) w ->
  answers (Sqlite.faults (sqlite w)) ->
  exists w',
    userService.Create theService u w = ((0, Some errDuplicate), w')
    /\ Sqlite.tables (sqlite w') = Sqlite.tables (sqlite w)
    /\ redis w' = redis w.
Proof.
  intros Hage Hreg Hans.
  unfold userService.Create.
  destruct (Z.ltb_spec (Age u) 18) as [Hlt|_]; [lia|].
  simpl. unfold proxyUserRepo.Create, mbind, M_bind, mret, M_ret. simpl.
  unfold userRepo.Create. simpl.
  unfold userDb.Create, ExecContext, Sqlite.run, mbind, M_bind, mret, M_ret. simpl.
  unfold email_registered, users_rows in Hreg.
  assert (exists t, Sqlite.tables (sqlite w) !! "users" = Some t
                    /\ Sqlite.email_taken (Email u) (Sqlite.rows t) = true)
    as (t & Ht & Htaken).
  { destruct (Sqlite.tables (sqlite w) !! "users") as [t|]; [eauto|discriminate]. }
  destruct Hans as [Hans|Hans];
    destruct (Sqlite.faults (sqlite w)) as [|[msg|] rest]; try discriminate;
    simpl; rewrite Ht; simpl; rewrite Htaken; simpl;
    eexists; repeat split; reflexivity.
Qed.

(** C5 (as amended). Let [Create] of [u1] have succeeded, and let any
    number of requests and any time go by.  Then [Create] of a user [u2]
    with the same email fails: with the validation error when
    [u2.age < 18], and otherwise, when the INSERT reaches the table, with
    the UNIQUE constraint error of the store (a ConstraintViolation),
    the tables being left as they were. *)
Theorem duplicate_email_rejected (u1 u2 : User) (w w1 w2 : world) (id : Z) :
  Email u1 = Email u2 ->
  userService.Create theService u1 w = ((id, None), w1) ->
  rtc step w1 w2 ->
  (Age u2 < 18 ->
   userService.Create theService u2 w2 = ((0, Some errUnderage), w2)
   /\ classify errUnderage = ValidationFailure)
  /\ (18 <= Age u2 -> answers (Sqlite.faults (sqlite w2)) ->
      exists w3,
        userService.Create theService u2 w2 = ((0, Some errDuplicate), w3)
        /\ classify errDuplicate = ConstraintViolation
        /\ Sqlite.tables (sqlite w3) = Sqlite.tables (sqlite w2)).
Proof.
  intros Hemail Hfirst Hsteps. split.
  - intros Hage. split; [|reflexivity].
    unfold userService.Create.
    destruct (Z.ltb_spec (Age u2) 18) as [_|Hge]; [reflexivity|lia].
  - intros Hage Hans.
    destruct (service_Create_ok_registers u1 w id w1 Hfirst) as [_ Hreg].
    rewrite Hemail in Hreg.
    pose proof (steps_keep_email (Email u2) w1 w2 Hsteps Hreg) as Hreg2.
    destruct (service_Create_duplicate u2 w2 Hage Hreg2 Hans) as (w3 & Hc & Ht & _).
    exists w3. repeat split; assumption.
Qed.

Lemma duplicate_email_rejected_witness :
  exists w3,
    userService.Create theService bo world3 = ((0, Some errDuplicate), w3)
    /\ classify errDuplicate = ConstraintViolation
    /\ Sqlite.tables (sqlite w3) = Sqlite.tables (sqlite world3).
Proof.
  apply (duplicate_email_rejected al bo world1 world2 world3 1).
  - reflexivity.
  - vm_compute. reflexivity.
  - apply rtc_once. apply step_GetAll.
  - simpl. lia.
  - left. reflexivity.
Defined.

(** C5 as stated fails: with a registered email, an under-age user is
    turned away by the age check, which is not a ConstraintViolation; and
    an adult's INSERT that does not reach the table fails with the
    driver's error. *)
Lemma duplicate_email_underage_counterexample :
  Email al = Email kid
  /\ userService.Create theService al world1 = ((1, None), world2)
  /\ userService.Create theService kid world2 = ((0, Some errUnderage), world2)
  /\ classify errUnderage <> ConstraintViolation
  /\ fst (userService.Create theService bo
            (elapse 0 [Some "disk I/O error"] [] world2))
     = (0, Some (ErrWrap "failed to insert user" (ErrSqlDriver "disk I/O error")))
  /\ classify (ErrWrap "failed to insert user" (ErrSqlDriver "disk I/O error"))
     <> ConstraintViolation.
Proof.
  repeat split; try (vm_compute; reflexivity); vm_compute; discriminate.
Qed.

(** ** Request handlers *)

(** What the handler sends when the service hands it a list. *)
Lemma controller_GetAll_ok {S} `{UserService.t S} (svc : S) w users w1 :
  UserService.GetAll svc w = ((users, None), w1) ->
  let rw := fst (userController.GetAll (NewUserController svc) http.NewRecorder w) in
  http.status rw = Some http.StatusOK
  /\ http.sent rw !! "Content-Type" = Some "application/json"
  /\ http.body rw = Json.render (Json.marshalUsers users) +:+ LF.
Proof.
  intros Hsvc. unfold userController.GetAll, mbind, M_bind, mret, M_ret.
  simpl. rewrite Hsvc. simpl. repeat split.
Qed.

(** With a non-nil list the body is an array of user objects. *)
Lemma controller_GetAll_array {S} `{UserService.t S} (svc : S) w l w1 :
  UserService.GetAll svc w = ((Some l, None), w1) ->
  is_user_array
    (http.body (fst (userController.GetAll (NewUserController svc)
                       http.NewRecorder w))).
Proof.
  intros Hsvc.
  destruct (controller_GetAll_ok svc w (Some l) w1 Hsvc) as (_ & _ & Hbody).
  exists l. exact Hbody.
Qed.

(** C8 (where the code departs from it). With an empty table [users], no
    live cache entry and a database that answers, GET /users responds 200
    with Content-Type application/json and the body [null]: the nil slice
    of [userDb.GetAll] is encoded as such, and the body is not a JSON
    array. *)
Theorem getall_empty_store_sends_null (w : world) (t : Sqlite.table) :
  Sqlite.tables (sqlite w) !! "users" = Some t ->
  Sqlite.rows t = [] ->
  answers (Sqlite.faults (sqlite w)) ->
  Redis.lookup "users" (Redis.now (redis w)) (Redis.store (redis w)) = None ->
  let rw := fst (userController.GetAll theController http.NewRecorder w) in
  http.status rw = Some http.StatusOK
  /\ http.sent rw !! "Content-Type" = Some "application/json"
  /\ http.body rw = "null" +:+ LF
  /\ ~ is_user_array (http.body rw).
Proof.
  intros Ht Hrows Hans Hmiss.
  destruct (proxy_GetAll_miss w t Ht Hans Hmiss) as (w1 & Hget).
  rewrite Hrows in Hget. simpl in Hget.
  assert (Hsvc : UserService.GetAll theService w = ((None, None), w1))
    by exact Hget.
  destruct (controller_GetAll_ok theService w None w1 Hsvc) as (Hst & Hct & Hbody).
  simpl. repeat split; try assumption.
  unfold theController. rewrite Hbody. simpl.
  intros [l Hl]. discriminate Hl.
Qed.

Lemma getall_empty_store_sends_null_witness :
  let rw := fst (userController.GetAll theController http.NewRecorder world1) in
  http.status rw = Some http.StatusOK
  /\ http.sent rw !! "Content-Type" = Some "application/json"
  /\ http.body rw = "null" +:+ LF
  /\ ~ is_user_array (http.body rw).
Proof.
  apply (getall_empty_store_sends_null world1 (Sqlite.mkTable [] 0)).
  - vm_compute. reflexivity.
  - reflexivity.
  - left. reflexivity.
  - vm_compute. reflexivity.
Defined.

(** ** The scenario of the specification, run on the model *)

Example scenario_underage :
  fst (userService.Create theService (mkUser 0 "Al" "x" "a@x.com" 17) world1)
  = (0, Some errUnderage).
Proof. vm_compute. reflexivity. Qed.

Example scenario_registered :
  fst (userService.Create theService al world1) = (1, None).
Proof. vm_compute. reflexivity. Qed.

Example scenario_duplicate :
  fst (userService.Create theService bo world2) = (0, Some errDuplicate).
Proof. vm_compute. reflexivity. Qed.

Example scenario_listed :
  fst (userService.GetAll theService world2)
  = (Some [mkUser 1 "Al" "x" "a@x.com" 21], None).
Proof. vm_compute. reflexivity. Qed.

(** A name that is not valid UTF-8 does not read back from the cache as
    it was written: the encoder replaces the offending byte. *)
Example roundtrips_needs_utf8 :
  ~ roundtrips (Some [mkUser 1 (String "200"%char "") "x" "a@x.com" 21]).
Proof. vm_compute. discriminate. Qed.

(** * The layers one by one *)

(** ** The persistence layer, call by call *)

Lemma max_rowid_bound l :
  0 <= Sqlite.max_rowid l /\ Forall (fun r => Sqlite.c_id r <= Sqlite.max_rowid l) l.
Proof.
  unfold Sqlite.max_rowid. induction l as [|r l [IH0 IH]]; simpl.
  - split; [lia|constructor].
  - split; [lia|]. constructor; [lia|].
    eapply Forall_impl; [exact IH|]. simpl. intros x Hx. lia.
Qed.

(** Everything [userDb.Create] does, read on the database. *)
Lemma userDb_Create_cases d u w :
  let r := userDb.Create d u w in
  redis (snd r) = redis w
  /\ logs (snd r) = logs w
  /\ ((exists cause,
         fst r = (0, Some (ErrWrap "failed to insert user" cause))
         /\ Sqlite.tables (sqlite (snd r)) = Sqlite.tables (sqlite w))
      \/ (exists t id,
            fst r = (id, None)
            /\ answers (Sqlite.faults (sqlite w))
            /\ Sqlite.tables (sqlite w) !! userDb.TableName d = Some t
            /\ Sqlite.email_taken (Email u) (Sqlite.rows t) = false
            /\ id = Z.max (Sqlite.seq t) (Sqlite.max_rowid (Sqlite.rows t)) + 1
            /\ Sqlite.tables (sqlite (snd r))
               = <[userDb.TableName d :=
                     Sqlite.mkTable (Sqlite.rows t ++ [row_of id u]) id]>
                   (Sqlite.tables (sqlite w)))).
Proof.
  unfold userDb.Create, ExecContext, Sqlite.run, answers, mbind, M_bind, mret, M_ret.
  destruct (Sqlite.faults (sqlite w)) as [|[msg|] rest]; simpl.
  2: { repeat split. left. eexists. split; reflexivity. }
  all: destruct (Sqlite.tables (sqlite w) !! userDb.TableName d) as [t|] eqn:Ht;
    simpl; [destruct (Sqlite.email_taken (Email u) (Sqlite.rows t)) eqn:Hem; simpl|].
  all: repeat split.
  all: try (left; eexists; split; reflexivity).
  all: right; exists t; eexists; repeat split; auto.
Qed.

(** X1. When [userDb.Create] succeeds, its table existed and did not hold the
    user's email; the identifier returned is positive and larger than that
    of every row already there, and the table afterwards is the old rows
    followed by the new row under that identifier. *)
Theorem userDb_create_fresh_id (d : userDb.t) (u : User) (w w1 : world) (id : Z) :
  userDb.Create d u w = ((id, None), w1) ->
  exists t,
    Sqlite.tables (sqlite w) !! userDb.TableName d = Some t
    /\ 0 < id
    /\ Forall (fun r => Sqlite.c_id r < id) (Sqlite.rows t)
    /\ Sqlite.email_taken (Email u) (Sqlite.rows t) = false
    /\ Sqlite.tables (sqlite w1)
       = <[userDb.TableName d :=
             Sqlite.mkTable (Sqlite.rows t ++ [row_of id u]) id]>
           (Sqlite.tables (sqlite w)).
Proof.
  intros Hc.
  destruct (userDb_Create_cases d u w) as (_ & _ & Hcases).
  rewrite Hc in Hcases. simpl in Hcases.
  destruct Hcases as [(cause & Hr & _)|(t & id' & Hr & _ & Ht & Hem & Hid & Htabs)];
    [discriminate|].
  injection Hr as <-. exists t.
  destruct (max_rowid_bound (Sqlite.rows t)) as [H0 Hall].
  repeat split; auto; [lia|].
  eapply Forall_impl; [exact Hall|]. simpl. intros r Hr. lia.
Qed.

Lemma userDb_create_fresh_id_witness :
  exists t,
    Sqlite.tables (sqlite world2) !! "users" = Some t
    /\ 0 < 2
    /\ Forall (fun r => Sqlite.c_id r < 2) (Sqlite.rows t)
    /\ Sqlite.email_taken (Email carl) (Sqlite.rows t) = false
    /\ Sqlite.tables (sqlite (snd (userDb.Create theUserDb carl world2)))
       = <["users" := Sqlite.mkTable (Sqlite.rows t ++ [row_of 2 carl]) 2]>
           (Sqlite.tables (sqlite world2)).
Proof.
  apply (userDb_create_fresh_id theUserDb carl world2
           (snd (userDb.Create theUserDb carl world2)) 2).
  vm_compute. reflexivity.
Defined.

(** X2. When [userDb.Create] fails it returns the identifier 0 and the cause
    wrapped as [failed to insert user], and neither the tables nor the
    cache have changed. *)
Theorem userDb_create_failure_atomic (d : userDb.t) (u : User) (w w1 : world)
    (id : Z) (e : error) :
  userDb.Create d u w = ((id, Some e), w1) ->
  id = 0
  /\ (exists cause, e = ErrWrap "failed to insert user" cause)
  /\ Sqlite.tables (sqlite w1) = Sqlite.tables (sqlite w)
  /\ redis w1 = redis w.
Proof.
  intros Hc.
  destruct (userDb_Create_cases d u w) as (Hredis & _ & Hcases).
  rewrite Hc in Hcases, Hredis. simpl in *.
  destruct Hcases as [(cause & Hr & Ht)|(t & id' & Hr & _)]; [|discriminate].
  injection Hr as -> ->. repeat split; eauto.
Qed.

Lemma userDb_create_failure_atomic_witness :
  0 = 0
  /\ (exists cause, ErrWrap "failed to insert user" (ErrSqliteUnique "users" "email")
                    = ErrWrap "failed to insert user" cause)
  /\ Sqlite.tables (sqlite (snd (userDb.Create theUserDb bo world2)))
     = Sqlite.tables (sqlite world2)
  /\ redis (snd (userDb.Create theUserDb bo world2)) = redis world2.
Proof.
  apply (userDb_create_failure_atomic theUserDb bo world2
           (snd (userDb.Create theUserDb bo world2)) 0
           (ErrWrap "failed to insert user" (ErrSqliteUnique "users" "email"))).
  vm_compute. reflexivity.
Defined.

Lemma userDb_GetAll_cases d w :
  let r := userDb.GetAll d w in
  Sqlite.tables (sqlite (snd r)) = Sqlite.tables (sqlite w)
  /\ redis (snd r) = redis w
  /\ logs (snd r) = logs w
  /\ Sqlite.history (sqlite (snd r))
     = Sqlite.history (sqlite w) ++ [Sqlite.SelectAll (userDb.TableName d)]
  /\ ((exists cause,
         fst r = (None, Some (ErrWrap "failed to get all users" cause)))
      \/ (exists t,
            answers (Sqlite.faults (sqlite w))
            /\ Sqlite.tables (sqlite w) !! userDb.TableName d = Some t
            /\ fst r = (listing (Sqlite.rows t), None))).
Proof.
  unfold userDb.GetAll, QueryContext, Sqlite.run, answers, mbind, M_bind, mret, M_ret.
  destruct (Sqlite.faults (sqlite w)) as [|[msg|] rest]; simpl.
  2: { repeat split. left. eexists. reflexivity. }
  all: destruct (Sqlite.tables (sqlite w) !! userDb.TableName d) as [t|] eqn:Ht;
    simpl; repeat split.
  all: try (left; eexists; reflexivity).
  all: right; exists t; rewrite scan_rows_nil; repeat split; auto.
Qed.



(** X4. After a successful [userDb.Create], a [userDb.GetAll] that reaches the
    database returns the users stored before followed by the new user
    under the identifier returned. *)
Theorem userDb_create_then_getall (d : userDb.t) (u : User) (w w1 : world)
    (id dt : Z) (fs fr : list (option string)) :
  userDb.Create d u w = ((id, None), w1) ->
  answers fs ->
  exists t,
    Sqlite.tables (sqlite w) !! userDb.TableName d = Some t
    /\ fst (userDb.GetAll d (elapse dt fs fr w1))
       = (Some (map userDb.Scan (Sqlite.rows t) ++ [stored id u]), None).
Proof.
  intros Hc Hfs.
  destruct (userDb_Create_cases d u w) as (_ & _ & Hcases).
  rewrite Hc in Hcases. simpl in Hcases.
  destruct Hcases as [(cause & Hr & _)|(t & id' & Hr & _ & Ht & _ & _ & Htabs)];
    [discriminate|].
  injection Hr as <-. exists t. split; [exact Ht|].
  destruct (userDb_GetAll_cases d (elapse dt fs fr w1))
    as (_ & _ & _ & _ & [(cause & Hr)|(t' & _ & Ht' & Hr)]).
  - exfalso. revert Hr.
    unfold userDb.GetAll, QueryContext, Sqlite.run, mbind, M_bind, mret, M_ret.
    simpl. rewrite Htabs, lookup_insert_eq.
    destruct Hfs as [Hfs|Hfs]; destruct fs as [|[msg|] rest]; try discriminate;
      simpl; discriminate.
  - rewrite Hr. simpl in Ht'. rewrite Htabs, lookup_insert_eq in Ht'.
    injection Ht' as <-. simpl. unfold listing.
    destruct (Sqlite.rows t ++ [row_of id u]) as [|r rows] eqn:Hrows.
    { destruct (Sqlite.rows t); discriminate. }
    rewrite <- Hrows, map_app. reflexivity.
Qed.

Lemma userDb_create_then_getall_witness :
  exists t,
    Sqlite.tables (sqlite world2) !! "users" = Some t
    /\ fst (userDb.GetAll theUserDb
              (elapse 5 [] [] (snd (userDb.Create theUserDb carl world2))))
       = (Some (map userDb.Scan (Sqlite.rows t) ++ [stored 2 carl]), None).
Proof.
  apply (userDb_create_then_getall theUserDb carl world2
           (snd (userDb.Create theUserDb carl world2)) 2 5 [] []).
  - vm_compute. reflexivity.
  - left. reflexivity.
Defined.

Lemma Migrate_cases u w :
  let r := userDb.Migrate u w in
  redis (snd r) = redis w
  /\ logs (snd r) = logs w
  /\ ((exists cause,
         fst r = Some (ErrWrap "failed to create table" cause)
         /\ Sqlite.tables (sqlite (snd r)) = Sqlite.tables (sqlite w))
      \/ (fst r = None
          /\ Sqlite.tables (sqlite (snd r))
             = match Sqlite.tables (sqlite w) !! userDb.TableName u with
               | Some _ => Sqlite.tables (sqlite w)
               | None => <[userDb.TableName u := Sqlite.mkTable [] 0]>
                           (Sqlite.tables (sqlite w))
               end)).
Proof.
  unfold userDb.Migrate, ExecContext, Sqlite.run, mbind, M_bind, mret, M_ret.
  destruct (Sqlite.faults (sqlite w)) as [|[msg|] rest]; simpl.
  2: { repeat split. left. eexists. split; reflexivity. }
  all: destruct (Sqlite.tables (sqlite w) !! userDb.TableName u) as [t|] eqn:Ht;
    simpl; repeat split; right; rewrite ?Ht; split; reflexivity.
Qed.

(** A migration that succeeds leaves the table in place and every other
    table as it was. *)
Lemma Migrate_ok u w :
  fst (userDb.Migrate u w) = None ->
  is_Some (Sqlite.tables (sqlite (snd (userDb.Migrate u w))) !! userDb.TableName u)
  /\ Sqlite.tables (sqlite w) ⊆ Sqlite.tables (sqlite (snd (userDb.Migrate u w))).
Proof.
  intros Hok.
  destruct (Migrate_cases u w) as (_ & _ & [(cause & Hr & _)|(_ & Ht)]);
    [congruence|].
  rewrite Ht.
  destruct (Sqlite.tables (sqlite w) !! userDb.TableName u) as [t|] eqn:Hl.
  - rewrite Hl. split; [eauto|reflexivity].
  - rewrite lookup_insert_eq. split; [eauto|]. apply insert_subseteq. exact Hl.
Qed.


(** X5. A [Migrate] that returns nil leaves the table in place and keeps every
    table that was there; migrating once more changes nothing. *)
Theorem migrate_creates_once (u : userDb.t) (w : world) :
  fst (userDb.Migrate u w) = None ->
  let w1 := snd (userDb.Migrate u w) in
  is_Some (Sqlite.tables (sqlite w1) !! userDb.TableName u)
  /\ Sqlite.tables (sqlite w) ⊆ Sqlite.tables (sqlite w1)
  /\ Sqlite.tables (sqlite (snd (userDb.Migrate u w1))) = Sqlite.tables (sqlite w1).
Proof.
  intros Hok w1. subst w1.
  destruct (Migrate_ok u w Hok) as [Hex Hsub].
  split; [exact Hex|]. split; [exact Hsub|].
  destruct (Migrate_cases u (snd (userDb.Migrate u w)))
    as (_ & _ & [(cause & _ & Hsame)|(_ & Ht2)]); [exact Hsame|].
  rewrite Ht2. destruct Hex as [t Hl]. rewrite Hl. reflexivity.
Qed.

Lemma migrate_creates_once_witness :
  let w1 := snd (userDb.Migrate theUserDb world2) in
  is_Some (Sqlite.tables (sqlite w1) !! "users")
  /\ Sqlite.tables (sqlite world2) ⊆ Sqlite.tables (sqlite w1)
  /\ Sqlite.tables (sqlite (snd (userDb.Migrate theUserDb w1)))
     = Sqlite.tables (sqlite w1).
Proof.
  apply (migrate_creates_once theUserDb world2).
  vm_compute. reflexivity.
Defined.

(** X6. [NewUserDB] never touches the cache.  When the migration succeeds it
    returns the handle on the table [users], which exists, with the old
    tables kept and nothing logged; when it fails there is no handle, the
    tables are as before and the wrapped error is the one line logged. *)
Theorem newUserDB_outcome (w : world) :
  let w1 := snd (NewUserDB w) in
  redis w1 = redis w
  /\ match fst (NewUserDB w) with
     | Some u =>
       u = userDb.mk "users"
       /\ is_Some (Sqlite.tables (sqlite w1) !! "users")
       /\ Sqlite.tables (sqlite w) ⊆ Sqlite.tables (sqlite w1)
       /\ logs w1 = logs w
     | None =>
       Sqlite.tables (sqlite w1) = Sqlite.tables (sqlite w)
       /\ exists cause,
            logs w1 = logs w ++ [Error (ErrWrap "failed to create table" cause)]
     end.
Proof.
  unfold NewUserDB, mbind, M_bind, mret, M_ret, log_Print.
  pose proof (Migrate_cases (userDb.mk "users") w) as (Hredis & Hlogs & Hcases).
  pose proof (Migrate_ok (userDb.mk "users") w) as Hmig.
  destruct (userDb.Migrate (userDb.mk "users") w) as [err w1]; simpl in *.
  destruct Hcases as [(cause & -> & Ht)|(-> & Ht)]; simpl.
  - split; [exact Hredis|]. split; [exact Ht|]. exists cause. rewrite Hlogs.
    reflexivity.
  - split; [exact Hredis|]. destruct (Hmig eq_refl) as (Hex & Hsub).
    repeat split; assumption.
Qed.

Lemma classify_errNotFound key : classify (errNotFound key) = NotFound.
Proof.
  unfold classify, errNotFound. simpl.
  repeat case_decide; try discriminate; reflexivity.
Qed.

Lemma DecodeUsers_error data e :
  Json.DecodeUsers data = inl e -> e = ErrJsonDecode.
Proof.
  unfold Json.DecodeUsers.
  destruct (Json.parse data ≫= Json.unmarshalUsers); congruence.
Qed.

(** ** The cache wrapper, call by call *)

(** Everything [cache.Get] returns, read on the server. *)
Lemma cache_Get_cases c key w :
  fst (cache.Get c key w)
  = match head (Redis.faults (redis w)) with
    | Some (Some msg) =>
      (None, Some (ErrWrap ("failed to get key " +:+ key) (ErrRedisIO msg)))
    | _ =>
      match Redis.lookup key (Redis.now (redis w)) (Redis.store (redis w)) with
      | None => (None, Some (errNotFound key))
      | Some e =>
        match Json.DecodeUsers (Redis.data e) with
        | inl err => (None, Some (ErrWrap ("failed to decode key " +:+ key) err))
        | inr users => (users, None)
        end
      end
    end.
Proof.
  unfold cache.Get, client_Get, redis_do, Redis.run, log_Print, mbind, M_bind, mret, M_ret.
  destruct (Redis.faults (redis w)) as [|[msg|] rest]; simpl.
  2: { repeat case_decide; try discriminate; reflexivity. }
  all: destruct (Redis.lookup key (Redis.now (redis w)) (Redis.store (redis w)))
    as [e|]; simpl; [|repeat case_decide; try congruence; reflexivity].
  all: destruct (Json.DecodeUsers (Redis.data e)); reflexivity.
Qed.

(** X7. With redis answering, [cache.Get] reports [key ... not found] exactly
    when no live entry is stored under the key, and any error it returns
    is that one or a failure to decode what is stored. *)
Theorem cache_get_not_found (c : cache.t) (key : string) (w : world) :
  answers (Redis.faults (redis w)) ->
  (Redis.lookup key (Redis.now (redis w)) (Redis.store (redis w)) = None
   <-> fst (cache.Get c key w) = (None, Some (errNotFound key)))
  /\ (forall e, snd (fst (cache.Get c key w)) = Some e ->
        classify e = NotFound \/ classify e = DecodeFailure).
Proof.
  intros Hans. rewrite cache_Get_cases.
  assert (Hhead : match head (Redis.faults (redis w)) with
                  | Some (Some _) => False | _ => True end).
  { destruct Hans as [H|H]; rewrite H; exact I. }
  destruct (head (Redis.faults (redis w))) as [[msg|]|]; try contradiction.
  all: destruct (Redis.lookup key _ _) as [e|]; simpl.
  all: try (destruct (Json.DecodeUsers (Redis.data e)) as [err|users] eqn:Hd;
            simpl; [apply DecodeUsers_error in Hd; subst err|]).
  all: split; [split; intros H; try discriminate H; try reflexivity|].
  all: intros e' [= <-]; auto using classify_errNotFound.
Qed.

Lemma cache_get_not_found_witness :
  (Redis.lookup "users" (Redis.now (redis world2)) (Redis.store (redis world2)) = None
   <-> fst (cache.Get NewCache "users" world2) = (None, Some (errNotFound "users")))
  /\ (forall e, snd (fst (cache.Get NewCache "users" world2)) = Some e ->
        classify e = NotFound \/ classify e = DecodeFailure).
Proof.
  apply (cache_get_not_found NewCache "users" world2).
  left. reflexivity.
Defined.

(** Everything [cache.Set_] does once the value has bytes to store. *)
Lemma cache_Set_cases c key v data w :
  cache.payload v = inr data ->
  let r := cache.Set_ c key v w in
  fst r = None
  /\ sqlite (snd r) = sqlite w
  /\ Redis.now (redis (snd r)) = Redis.now (redis w)
  /\ Redis.faults (redis (snd r)) = tail (Redis.faults (redis w))
  /\ Redis.history (redis (snd r))
     = Redis.history (redis w) ++ [Redis.SET key data (cache.dataExpiration c)]
  /\ match head (Redis.faults (redis w)) with
     | Some (Some msg) => Redis.store (redis (snd r)) = Redis.store (redis w)
     | _ =>
       0 < cache.dataExpiration c ->
       Redis.store (redis (snd r))
       = <[key := Redis.mkEntry data
                    (Some (Redis.now (redis w) + cache.dataExpiration c))]>
           (Redis.store (redis w))
     end.
Proof.
  intros Hp. unfold cache.Set_. rewrite Hp.
  unfold client_Set, redis_do, Redis.run, log_Print, mbind, M_bind, mret, M_ret.
  destruct (Redis.faults (redis w)) as [|[msg|] rest]; simpl; repeat split.
  all: intros Hpos; apply Z.ltb_lt in Hpos; rewrite Hpos; reflexivity.
Qed.

Lemma lookup_inserted key data d t m :
  Redis.lookup key t (<[key := Redis.mkEntry data (Some d)]> m)
  = if t <? d then Some (Redis.mkEntry data (Some d)) else None.
Proof. unfold Redis.lookup. rewrite lookup_insert_eq. reflexivity. Qed.

(** What a read finds [dt] after a write that reached the server. *)
Lemma cache_Set_then_lookup c key v data w dt :
  cache.payload v = inr data ->
  answers (Redis.faults (redis w)) ->
  0 < cache.dataExpiration c ->
  Redis.lookup key (Redis.now (redis (snd (cache.Set_ c key v w))) + dt)
    (Redis.store (redis (snd (cache.Set_ c key v w))))
  = if dt <? cache.dataExpiration c
    then Some (Redis.mkEntry data
                 (Some (Redis.now (redis w) + cache.dataExpiration c)))
    else None.
Proof.
  intros Hp Hans Hpos.
  destruct (cache_Set_cases c key v data w Hp) as (_ & _ & Hnow & _ & _ & Hst).
  assert (Hstore : Redis.store (redis (snd (cache.Set_ c key v w)))
                   = <[key := Redis.mkEntry data
                                (Some (Redis.now (redis w) + cache.dataExpiration c))]>
                       (Redis.store (redis w))).
  { destruct Hans as [H|H]; rewrite H in Hst; exact (Hst Hpos). }
  rewrite Hstore, Hnow, lookup_inserted.
  destruct (Z.ltb_spec dt (cache.dataExpiration c));
    destruct (Z.ltb_spec (Redis.now (redis w) + dt)
                (Redis.now (redis w) + cache.dataExpiration c)); try lia; reflexivity.
Qed.

Lemma head_answers fr :
  answers fr ->
  match head fr with Some (Some _) => False | _ => True end.
Proof. intros [H|H]; rewrite H; exact I. Qed.

(** X8. With redis answering and a positive expiration, [cache.Set] of a list
    of users returns nil, and a [cache.Get] of the key before the
    expiration has passed returns that list, when the list reads back from
    its encoding. *)
Theorem cache_set_get_roundtrip (c : cache.t) (key : string) (users : slice User)
    (w : world) (dt : Z) (fs fr : list (option string)) :
  answers (Redis.faults (redis w)) ->
  0 < cache.dataExpiration c ->
  dt < cache.dataExpiration c ->
  answers fr ->
  roundtrips users ->
  fst (cache.Set_ c key (UsersV users) w) = None
  /\ fst (cache.Get c key (elapse dt fs fr (snd (cache.Set_ c key (UsersV users) w))))
     = (users, None).
Proof.
  intros Hans Hpos Hdt Hfr Hrt.
  split; [apply cache_Set_users|].
  rewrite cache_Get_cases. simpl.
  pose proof (head_answers fr Hfr) as Hh.
  rewrite (cache_Set_then_lookup c key (UsersV users) _ w dt eq_refl Hans Hpos).
  apply Z.ltb_lt in Hdt. rewrite Hdt. simpl.
  unfold roundtrips in Hrt. simpl in Hrt. rewrite Hrt.
  destruct (head fr) as [[msg|]|]; [contradiction|reflexivity|reflexivity].
Qed.

Lemma cache_set_get_roundtrip_witness :
  fst (cache.Set_ NewCache "k" (UsersV (Some [stored 1 al])) world1) = None
  /\ fst (cache.Get NewCache "k"
            (elapse (4 * Minute) [] []
               (snd (cache.Set_ NewCache "k" (UsersV (Some [stored 1 al])) world1))))
     = (Some [stored 1 al], None).
Proof.
  apply (cache_set_get_roundtrip NewCache "k" (Some [stored 1 al]) world1
           (4 * Minute) [] []).
  - left. reflexivity.
  - reflexivity.
  - reflexivity.
  - left. reflexivity.
  - vm_compute. reflexivity.
Defined.



(** X10. [cache.Set] stores a [[]byte] value as it is, without encoding it; a
    [cache.Get] within the expiration decodes exactly those bytes, and
    fails with [failed to decode key] when they are no list of users. *)
Theorem cache_set_bytes_verbatim (c : cache.t) (key data : string) (w : world)
    (dt : Z) (fs fr : list (option string)) :
  answers (Redis.faults (redis w)) ->
  0 < cache.dataExpiration c ->
  dt < cache.dataExpiration c ->
  answers fr ->
  let w1 := snd (cache.Set_ c key (BytesV data) w) in
  Redis.data <$> Redis.store (redis w1) !! key = Some data
  /\ fst (cache.Get c key (elapse dt fs fr w1))
     = match Json.DecodeUsers data with
       | inr users => (users, None)
       | inl e => (None, Some (ErrWrap ("failed to decode key " +:+ key) e))
       end.
Proof.
  intros Hans Hpos Hdt Hfr w1. subst w1. split.
  - destruct (cache_Set_cases c key (BytesV data) data w eq_refl)
      as (_ & _ & _ & _ & _ & Hst).
    destruct Hans as [H|H]; rewrite H in Hst; rewrite (Hst Hpos), lookup_insert_eq;
      reflexivity.
  - rewrite cache_Get_cases. simpl.
    pose proof (head_answers fr Hfr) as Hh.
    rewrite (cache_Set_then_lookup c key (BytesV data) data w dt eq_refl Hans Hpos).
    apply Z.ltb_lt in Hdt. rewrite Hdt. simpl.
    destruct (head fr) as [[msg|]|]; [contradiction|reflexivity|reflexivity].
Qed.

Lemma cache_set_bytes_verbatim_witness :
  let w1 := snd (cache.Set_ NewCache "k" (BytesV "null") world1) in
  Redis.data <$> Redis.store (redis w1) !! "k" = Some "null"
  /\ fst (cache.Get NewCache "k" (elapse 0 [] [] w1))
     = match Json.DecodeUsers "null" with
       | inr users => (users, None)
       | inl e => (None, Some (ErrWrap ("failed to decode key " +:+ "k") e))
       end.
Proof.
  apply (cache_set_bytes_verbatim NewCache "k" "null" world1 0 [] []).
  - left. reflexivity.
  - reflexivity.
  - reflexivity.
  - left. reflexivity.
Defined.

(** Everything [cache.Delete] does. *)
Lemma cache_Delete_cases c key w :
  let r := cache.Delete c key w in
  sqlite (snd r) = sqlite w
  /\ Redis.now (redis (snd r)) = Redis.now (redis w)
  /\ Redis.faults (redis (snd r)) = tail (Redis.faults (redis w))
  /\ Redis.history (redis (snd r)) = Redis.history (redis w) ++ [Redis.DEL key]
  /\ match head (Redis.faults (redis w)) with
     | Some (Some msg) =>
       fst r = Some (ErrRedisIO msg)
       /\ Redis.store (redis (snd r)) = Redis.store (redis w)
       /\ logs (snd r) = logs w ++ ["ошибка удаления кэша: " +:+ msg +:+ LF]
     | _ =>
       fst r = None
       /\ Redis.store (redis (snd r)) = delete key (Redis.store (redis w))
       /\ logs (snd r) = logs w
     end.
Proof.
  unfold cache.Delete, client_Del, redis_do, Redis.run, log_Print, mbind, M_bind, mret, M_ret.
  destruct (Redis.faults (redis w)) as [|[msg|] rest]; simpl; repeat split.
Qed.

(** X11. With redis answering, [cache.Delete] returns nil and removes the key
    and no other; a later [cache.Get] of the key reports [key ... not
    found]. *)
Theorem cache_delete_then_get (c : cache.t) (key : string) (w : world)
    (dt : Z) (fs fr : list (option string)) :
  answers (Redis.faults (redis w)) ->
  answers fr ->
  let w1 := snd (cache.Delete c key w) in
  fst (cache.Delete c key w) = None
  /\ Redis.store (redis w1) = delete key (Redis.store (redis w))
  /\ fst (cache.Get c key (elapse dt fs fr w1)) = (None, Some (errNotFound key)).
Proof.
  intros Hans Hfr w1. subst w1.
  destruct (cache_Delete_cases c key w) as (_ & _ & _ & _ & Hcase).
  pose proof (head_answers _ Hans) as Hh.
  assert (Hok : fst (cache.Delete c key w) = None
                /\ Redis.store (redis (snd (cache.Delete c key w)))
                   = delete key (Redis.store (redis w))).
  { destruct (head (Redis.faults (redis w))) as [[msg|]|]; [contradiction| |];
      destruct Hcase as (H1 & H2 & _); auto. }
  destruct Hok as [Hnil Hstore]. repeat split; [exact Hnil|exact Hstore|].
  rewrite cache_Get_cases. simpl. rewrite Hstore, lookup_deleted.
  pose proof (head_answers fr Hfr) as Hh'.
  destruct (head fr) as [[msg|]|]; [contradiction|reflexivity|reflexivity].
Qed.

Lemma cache_delete_then_get_witness :
  let w1 := snd (cache.Delete NewCache "users" world3) in
  fst (cache.Delete NewCache "users" world3) = None
  /\ Redis.store (redis w1) = delete "users" (Redis.store (redis world3))
  /\ fst (cache.Get NewCache "users" (elapse 0 [] [] w1))
     = (None, Some (errNotFound "users")).
Proof.
  apply (cache_delete_then_get NewCache "users" world3 0 [] []).
  - left. reflexivity.
  - left. reflexivity.
Defined.

(** ** The caching repository, call by call *)

Lemma cache_Get_world c key w :
  let r := cache.Get c key w in
  sqlite (snd r) = sqlite w
  /\ Redis.store (redis (snd r)) = Redis.store (redis w)
  /\ Redis.now (redis (snd r)) = Redis.now (redis w)
  /\ Redis.faults (redis (snd r)) = tail (Redis.faults (redis w))
  /\ Redis.history (redis (snd r)) = Redis.history (redis w) ++ [Redis.GET key].
Proof.
  unfold cache.Get, client_Get, redis_do, Redis.run, log_Print, mbind, M_bind, mret, M_ret.
  destruct (Redis.faults (redis w)) as [|[msg|] rest]; simpl.
  2: { repeat case_decide; repeat split. }
  all: destruct (Redis.lookup key (Redis.now (redis w)) (Redis.store (redis w)))
    as [e|]; simpl; [|repeat case_decide; repeat split].
  all: destruct (Json.DecodeUsers (Redis.data e)); repeat split.
Qed.

(** The answer of the store depends on the database alone. *)
Lemma userDb_GetAll_sqlite d w w' :
  sqlite w = sqlite w' -> fst (userDb.GetAll d w) = fst (userDb.GetAll d w').
Proof.
  intros Heq. unfold userDb.GetAll, QueryContext, mbind, M_bind, mret, M_ret.
  rewrite Heq. destruct (Sqlite.run _ (sqlite w')) as [[id|l|e] s]; reflexivity.
Qed.

Lemma userDb_Create_sqlite d u w w' :
  sqlite w = sqlite w' ->
  fst (userDb.Create d u w) = fst (userDb.Create d u w')
  /\ sqlite (snd (userDb.Create d u w)) = sqlite (snd (userDb.Create d u w')).
Proof.
  intros Heq. unfold userDb.Create, ExecContext, mbind, M_bind, mret, M_ret.
  rewrite Heq. destruct (Sqlite.run _ (sqlite w')) as [[id|l|e] s]; split; reflexivity.
Qed.

(** Everything [GetAll] of the caching repository does: a hit, a miss
    on which the store fails, or a miss on which the store answers. *)
Lemma proxy_GetAll_cases d c w :
  let r := proxyUserRepo.GetAll (NewProxyUserRepo (NewUserRepo d) c) w in
  let hr := Redis.history (redis w) in
  let hs := Sqlite.history (sqlite w) in
  (exists users,
     fst (cache.Get c "users" w) = (users, None)
     /\ fst r = (users, None)
     /\ sqlite (snd r) = sqlite w
     /\ Redis.store (redis (snd r)) = Redis.store (redis w)
     /\ Redis.history (redis (snd r)) = hr ++ [Redis.GET "users"])
  \/ (exists e0 e,
        fst (cache.Get c "users" w) = (None, Some e0)
        /\ fst (userDb.GetAll d w) = (None, Some e)
        /\ fst r = (None, Some e)
        /\ Redis.store (redis (snd r)) = Redis.store (redis w)
        /\ Sqlite.history (sqlite (snd r))
           = hs ++ [Sqlite.SelectAll (userDb.TableName d)]
        /\ Redis.history (redis (snd r)) = hr ++ [Redis.GET "users"])
  \/ (exists e0 users,
        fst (cache.Get c "users" w) = (None, Some e0)
        /\ fst (userDb.GetAll d w) = (users, None)
        /\ fst r = (users, None)
        /\ Sqlite.history (sqlite (snd r))
           = hs ++ [Sqlite.SelectAll (userDb.TableName d)]
        /\ Redis.history (redis (snd r))
           = hr ++ [Redis.GET "users";
                    Redis.SET "users" (encoded users) (cache.dataExpiration c)]
        /\ Redis.now (redis (snd r)) = Redis.now (redis w)
        /\ match head (tail (Redis.faults (redis w))) with
           | Some (Some msg) =>
             Redis.store (redis (snd r)) = Redis.store (redis w)
           | _ =>
             0 < cache.dataExpiration c ->
             Redis.store (redis (snd r))
             = <["users" := Redis.mkEntry (encoded users)
                              (Some (Redis.now (redis w) + cache.dataExpiration c))]>
                 (Redis.store (redis w))
           end).
Proof.
  intros r hr hs. subst r hr hs.
  unfold proxyUserRepo.GetAll, mbind, M_bind, mret, M_ret. simpl.
  pose proof (cache_Get_world c "users" w) as (Hsq & Hst & Hnow & Hfl & Hh).
  pose proof (cache_Get_cases c "users" w) as Hshape.
  destruct (cache.Get c "users" w) as [[users err] wa]; simpl in *.
  destruct err as [e0|].
  - assert (users = None) as ->.
    { revert Hshape.
      destruct (head (Redis.faults (redis w))) as [[msg|]|];
        try (intros [= -> _]; reflexivity).
      all: destruct (Redis.lookup "users" _ _) as [e|];
        try (intros [= -> _]; reflexivity).
      all: destruct (Json.DecodeUsers (Redis.data e));
        intros [= H1 H2]; try discriminate; auto. }
    right. unfold userRepo.GetAll; simpl.
    pose proof (userDb_GetAll_cases d wa) as (Ht & Hr & _ & Hhs & _).
    pose proof (userDb_GetAll_sqlite d w wa (eq_sym Hsq)) as Hsame.
    destruct (userDb.GetAll d wa) as [[users' err'] wb]; simpl in *.
    rewrite Hsame. destruct err' as [e|].
    + left. exists e0, e.
      assert (users' = None) as ->.
      { destruct (userDb_GetAll_cases d w) as (_ & _ & _ & _ & Hc).
        rewrite Hsame in Hc. simpl in Hc.
        destruct Hc as [(cause & [= -> _])|(t & _ & _ & [= _])]; reflexivity. }
      simpl. rewrite Hr, Hst, Hh, Hhs, Hsq. repeat split.
    + right. exists e0, users'.
      pose proof (cache_Set_cases c "users" (UsersV users') (encoded users') wb eq_refl)
        as (Hnil & Hsq' & Hnow' & _ & Hh' & Hst').
      destruct (cache.Set_ c "users" (UsersV users') wb) as [err2 wc]. simpl in *.
      subst err2. simpl.
      rewrite Hsq', Hhs, Hsq, Hh', Hr, Hh, Hnow', Hr, Hnow.
      rewrite <- app_assoc. simpl. repeat split.
      rewrite Hr, Hfl, Hst, Hnow in Hst'. exact Hst'.
  - left. exists users. repeat split; auto.
Qed.

(** Everything [Create] of the caching repository does: the store's
    failure handed on, or its identifier after one DEL. *)
Lemma proxy_Create_cases d c u w :
  let r := proxyUserRepo.Create (NewProxyUserRepo (NewUserRepo d) c) u w in
  let s := userDb.Create d u w in
  fst r = fst s
  /\ sqlite (snd r) = sqlite (snd s)
  /\ match snd (fst s) with
     | Some _ => snd r = snd s
     | None =>
       Redis.history (redis (snd r)) = Redis.history (redis w) ++ [Redis.DEL "users"]
       /\ match head (Redis.faults (redis w)) with
          | Some (Some msg) =>
            Redis.store (redis (snd r)) = Redis.store (redis w)
            /\ logs (snd r)
               = logs w ++ ["ошибка удаления кэша: " +:+ msg +:+ LF;
                            "ошибка сброса кэша: " +:+ msg +:+ LF]
          | _ =>
            Redis.store (redis (snd r)) = delete "users" (Redis.store (redis w))
            /\ logs (snd r) = logs w
          end
     end.
Proof.
  intros r s. subst r s.
  unfold proxyUserRepo.Create, mbind, M_bind, mret, M_ret. simpl.
  unfold userRepo.Create. simpl.
  pose proof (userDb_Create_cases d u w) as (Hredis & Hlogs & Hcases).
  destruct (userDb.Create d u w) as [[id err] wa]. simpl in *.
  destruct err as [e|]; simpl.
  - destruct Hcases as [(cause & [= -> ->] & _)|(t & id' & [=] & _)].
    repeat split.
  - pose proof (cache_Delete_cases c "users" wa) as (Hsq & _ & _ & Hh & Hcase).
    rewrite Hredis, Hlogs in *.
    destruct (cache.Delete c "users" wa) as [err2 wb]. simpl in *.
    destruct (head (Redis.faults (redis w))) as [[msg|]|];
      destruct Hcase as (-> & Hst & Hl); unfold log_Print; simpl;
      rewrite ?Hsq, ?Hh, ?Hst, ?Hl, <- ?app_assoc; repeat split.
Qed.

(** X12. [proxyUserRepo.Create] returns what [userDb.Create] returns and leaves
    the database as [userDb.Create] leaves it: the cache has no part in
    the outcome of a creation. *)
Theorem proxy_create_transparent (d : userDb.t) (c : cache.t) (u : User) (w : world) :
  fst (proxyUserRepo.Create (NewProxyUserRepo (NewUserRepo d) c) u w)
  = fst (userDb.Create d u w)
  /\ sqlite (snd (proxyUserRepo.Create (NewProxyUserRepo (NewUserRepo d) c) u w))
     = sqlite (snd (userDb.Create d u w)).
Proof.
  destruct (proxy_Create_cases d c u w) as (H1 & H2 & _). split; assumption.
Qed.

(** X13. Whenever the read of the cache fails, [proxyUserRepo.GetAll] returns
    what [userDb.GetAll] returns and sends the database one SELECT. *)
Theorem proxy_getall_miss_transparent (d : userDb.t) (c : cache.t) (w : world)
    (e0 : error) :
  snd (fst (cache.Get c "users" w)) = Some e0 ->
  fst (proxyUserRepo.GetAll (NewProxyUserRepo (NewUserRepo d) c) w)
  = fst (userDb.GetAll d w)
  /\ Sqlite.history (sqlite (snd (proxyUserRepo.GetAll
                                    (NewProxyUserRepo (NewUserRepo d) c) w)))
     = Sqlite.history (sqlite w) ++ [Sqlite.SelectAll (userDb.TableName d)].
Proof.
  intros Hmiss.
  destruct (proxy_GetAll_cases d c w)
    as [(users & Hg & _)|[(e1 & e & _ & Hdb & Hr & _ & Hh & _)
                         |(e1 & users & _ & Hdb & Hr & Hh & _)]].
  - rewrite Hg in Hmiss. discriminate.
  - rewrite Hr, Hdb. split; [reflexivity|exact Hh].
  - rewrite Hr, Hdb. split; [reflexivity|exact Hh].
Qed.

Lemma proxy_getall_miss_transparent_witness :
  fst (proxyUserRepo.GetAll (NewProxyUserRepo (NewUserRepo theUserDb) NewCache) world2)
  = fst (userDb.GetAll theUserDb world2)
  /\ Sqlite.history (sqlite (snd (proxyUserRepo.GetAll
                                    (NewProxyUserRepo (NewUserRepo theUserDb) NewCache)
                                    world2)))
     = Sqlite.history (sqlite world2) ++ [Sqlite.SelectAll "users"].
Proof.
  apply (proxy_getall_miss_transparent theUserDb NewCache world2 (errNotFound "users")).
  vm_compute. reflexivity.
Defined.

(** X14. An error of [proxyUserRepo.GetAll] is an error of the store: the users
    are nil, the store's [GetAll] fails with the same error, nothing is
    written to the cache and redis has only seen the GET. *)
Theorem proxy_getall_error_is_store_error (d : userDb.t) (c : cache.t) (w w1 : world)
    (users : slice User) (e : error) :
  proxyUserRepo.GetAll (NewProxyUserRepo (NewUserRepo d) c) w = ((users, Some e), w1) ->
  users = None
  /\ fst (userDb.GetAll d w) = (None, Some e)
  /\ (exists cause, e = ErrWrap "failed to get all users" cause)
  /\ Redis.store (redis w1) = Redis.store (redis w)
  /\ Redis.history (redis w1) = Redis.history (redis w) ++ [Redis.GET "users"].
Proof.
  intros Hg.
  destruct (proxy_GetAll_cases d c w)
    as [(us & _ & Hr & _)|[(e1 & e' & _ & Hdb & Hr & Hst & _ & Hh)
                          |(e1 & us & _ & _ & Hr & _)]];
    rewrite Hg in *; simpl in *; try discriminate.
  injection Hr as -> ->. repeat split; auto.
  destruct (userDb_GetAll_cases d w) as (_ & _ & _ & _ & [(cause & Hc)|(t & _ & _ & Hc)]);
    rewrite Hdb in Hc; [injection Hc as ->; eauto|discriminate].
Qed.

Lemma proxy_getall_error_is_store_error_witness :
  let w := elapse 0 [Some "database is locked"] [] world2 in
  (None : slice User) = None
  /\ fst (userDb.GetAll theUserDb w)
     = (None, Some (ErrWrap "failed to get all users" (ErrSqlDriver "database is locked")))
  /\ (exists cause,
        ErrWrap "failed to get all users" (ErrSqlDriver "database is locked")
        = ErrWrap "failed to get all users" cause)
  /\ Redis.store (redis (snd (proxyUserRepo.GetAll theProxyRepo w)))
     = Redis.store (redis w)
  /\ Redis.history (redis (snd (proxyUserRepo.GetAll theProxyRepo w)))
     = Redis.history (redis w) ++ [Redis.GET "users"].
Proof.
  apply (proxy_getall_error_is_store_error theUserDb NewCache
           (elapse 0 [Some "database is locked"] [] world2)
           (snd (proxyUserRepo.GetAll theProxyRepo
                   (elapse 0 [Some "database is locked"] [] world2)))
           None
           (ErrWrap "failed to get all users" (ErrSqlDriver "database is locked"))).
  vm_compute. reflexivity.
Defined.

(** X15. The calls one request makes on the two servers.  [GetAll] sends redis
    a GET first, the database at most one SELECT, a SET only after a
    SELECT and never a DEL; [Create] sends the database one INSERT, and
    redis a DEL exactly when the insertion succeeded. *)
Theorem proxy_call_protocol (d : userDb.t) (c : cache.t) (u : User) (w : world) :
  let wg := snd (proxyUserRepo.GetAll (NewProxyUserRepo (NewUserRepo d) c) w) in
  let wc := snd (proxyUserRepo.Create (NewProxyUserRepo (NewUserRepo d) c) u w) in
  let hr := Redis.history (redis w) in
  let hs := Sqlite.history (sqlite w) in
  let sel := Sqlite.SelectAll (userDb.TableName d) in
  ((Redis.history (redis wg) = hr ++ [Redis.GET "users"]
    /\ (Sqlite.history (sqlite wg) = hs \/ Sqlite.history (sqlite wg) = hs ++ [sel]))
   \/ (exists data,
         Redis.history (redis wg)
         = hr ++ [Redis.GET "users"; Redis.SET "users" data (cache.dataExpiration c)]
         /\ Sqlite.history (sqlite wg) = hs ++ [sel]))
  /\ Sqlite.history (sqlite wc)
     = hs ++ [Sqlite.Insert (userDb.TableName d) (Name u) (Password u) (Email u) (Age u)]
  /\ Redis.history (redis wc)
     = hr ++ match snd (fst (proxyUserRepo.Create
                               (NewProxyUserRepo (NewUserRepo d) c) u w)) with
             | None => [Redis.DEL "users"]
             | Some _ => []
             end.
Proof.
  intros wg wc hr hs sel. subst wg wc hr hs sel. split.
  - destruct (proxy_GetAll_cases d c w)
      as [(us & _ & _ & Hsq & _ & Hh)|[(e1 & e' & _ & _ & _ & _ & Hhs & Hh)
                                      |(e1 & us & _ & _ & _ & Hhs & Hh & _)]].
    + left. rewrite Hsq. auto.
    + left. auto.
    + right. eauto.
  - destruct (proxy_Create_cases d c u w) as (Hfst & Hsq & Hcase).
    rewrite Hfst, Hsq.
    assert (Hhs : Sqlite.history (sqlite (snd (userDb.Create d u w)))
                  = Sqlite.history (sqlite w)
                    ++ [Sqlite.Insert (userDb.TableName d) (Name u) (Password u)
                                      (Email u) (Age u)]).
    { unfold userDb.Create, ExecContext, Sqlite.run, mbind, M_bind, mret, M_ret.
      destruct (Sqlite.faults (sqlite w)) as [|[msg|] rest]; simpl;
        try reflexivity;
        destruct (Sqlite.tables (sqlite w) !! userDb.TableName d) as [t|];
        simpl; try reflexivity;
        destruct (Sqlite.email_taken (Email u) (Sqlite.rows t)); reflexivity. }
    split; [exact Hhs|].
    destruct (snd (fst (userDb.Create d u w))) as [e|].
    + rewrite Hcase. rewrite app_nil_r.
      apply (f_equal Redis.history). apply userDb_Create_cases.
    + apply Hcase.
Qed.



(** ** Runs during which redis answers every command *)







(** ** The validation service over the whole stack *)

Lemma service_Create_adult u w :
  18 <= Age u ->
  userService.Create theService u w = proxyUserRepo.Create theProxyRepo u w.
Proof.
  intros Hage. unfold userService.Create.
  destruct (Z.ltb_spec (Age u) 18); [lia|reflexivity].
Qed.

Lemma service_create_succeeds_aux (u : User) (w : world) (t : Sqlite.table) :
  18 <= Age u ->
  Sqlite.tables (sqlite w) !! "users" = Some t ->
  Sqlite.email_taken (Email u) (Sqlite.rows t) = false ->
  answers (Sqlite.faults (sqlite w)) ->
  exists id w1,
    userService.Create theService u w = ((id, None), w1)
    /\ 0 < id
    /\ Forall (fun r => Sqlite.c_id r < id) (Sqlite.rows t)
    /\ users_rows w1 = Sqlite.rows t ++ [row_of id u].
Proof.
  intros Hage Ht Hfresh Hans.
  rewrite (service_Create_adult u w Hage).
  destruct (proxy_Create_cases theUserDb NewCache u w) as (Hfst & Hsq & _).
  fold theRepo in Hfst, Hsq. fold theProxyRepo in Hfst, Hsq.
  destruct (userDb_Create_cases theUserDb u w)
    as (_ & _ & [(cause & Hr & _)|(t' & id & Hr & _ & Ht' & _ & Hid & Htabs)]).
  - exfalso. revert Hr.
    unfold userDb.Create, ExecContext, Sqlite.run, mbind, M_bind, mret, M_ret.
    simpl. rewrite Ht. simpl. rewrite Hfresh.
    destruct Hans as [H|H];
      destruct (Sqlite.faults (sqlite w)) as [|[msg|] rest]; try discriminate H;
      simpl; discriminate.
  - simpl in Ht'. rewrite Ht in Ht'. injection Ht' as <-.
    exists id, (snd (proxyUserRepo.Create theProxyRepo u w)).
    destruct (max_rowid_bound (Sqlite.rows t)) as [H0 Hall].
    repeat split.
    + rewrite <- Hr, <- Hfst. destruct (proxyUserRepo.Create theProxyRepo u w)
        as [r w1]. reflexivity.
    + lia.
    + eapply Forall_impl; [exact Hall|]. simpl. intros r Hle. lia.
    + unfold users_rows. rewrite Hsq, Htabs. simpl. rewrite lookup_insert_eq.
      reflexivity.
Qed.

(** X18. A user of 18 or more with an email the table does not hold is
    registered whenever the database answers, whatever redis does: the
    identifier is positive and larger than every one stored, and the
    table gains the row. *)
Theorem service_create_succeeds (u : User) (w : world) (t : Sqlite.table) :
  18 <= Age u ->
  Sqlite.tables (sqlite w) !! "users" = Some t ->
  Sqlite.email_taken (Email u) (Sqlite.rows t) = false ->
  answers (Sqlite.faults (sqlite w)) ->
  exists id w1,
    userService.Create theService u w = ((id, None), w1)
    /\ 0 < id
    /\ Forall (fun r => Sqlite.c_id r < id) (Sqlite.rows t)
    /\ users_rows w1 = Sqlite.rows t ++ [row_of id u].
Proof. exact (service_create_succeeds_aux u w t). Qed.

Lemma service_create_succeeds_witness :
  exists id w1,
    userService.Create theService carl world3 = ((id, None), w1)
    /\ 0 < id
    /\ Forall (fun r => Sqlite.c_id r < id) [row_of 1 al]
    /\ users_rows w1 = [row_of 1 al] ++ [row_of id carl].
Proof.
  apply (service_create_succeeds carl world3 (Sqlite.mkTable [row_of 1 al] 1)).
  - simpl. lia.
  - vm_compute. reflexivity.
  - reflexivity.
  - left. reflexivity.
Defined.









(** ** Request handlers over the whole stack *)

(** The handler of [/user], once the body is decoded. *)
Lemma controller_Create_decoded {S} `{UserService.t S} (svc : S) r u w :
  Json.DecodeUser (http.Body r) = inr u ->
  userController.Create (NewUserController svc) http.NewRecorder r w
  = let '((id, err), w1) := UserService.Create svc u w in
    match err with
    | Some e =>
      (http.Write (Error e)
         (http.WriteHeader http.StatusInternalServerError http.NewRecorder),
       mkWorld (sqlite w1) (redis w1)
               (logs w1 ++ ["ошибка создания юзера: " +:+ Error e +:+ LF]))
    | None =>
      (http.Write (pretty id)
         (http.WriteHeader http.StatusCreated http.NewRecorder),
       mkWorld (sqlite w1) (redis w1)
               (logs w1 ++ ["новый юзер создан c id: " +:+ pretty id +:+ LF]))
    end.
Proof.
  intros Hd. unfold userController.Create, mbind, M_bind, mret, M_ret, log_Print.
  simpl. rewrite Hd.
  destruct (UserService.Create svc u w) as [[id err] w1].
  destruct err; reflexivity.
Qed.

(** X21. The handler of [/user]: a body that decodes to a user of 18 or more
    with a fresh email is answered, when the database answers, with 201
    and the new identifier in decimal, and the user is stored under it. *)
Theorem create_handler_created (r : http.Request) (u : User) (w : world)
    (t : Sqlite.table) :
  Json.DecodeUser (http.Body r) = inr u ->
  18 <= Age u ->
  Sqlite.tables (sqlite w) !! "users" = Some t ->
  Sqlite.email_taken (Email u) (Sqlite.rows t) = false ->
  answers (Sqlite.faults (sqlite w)) ->
  let res := userController.Create theController http.NewRecorder r w in
  exists id,
    http.status (fst res) = Some http.StatusCreated
    /\ http.body (fst res) = pretty id
    /\ 0 < id
    /\ Forall (fun x => Sqlite.c_id x < id) (Sqlite.rows t)
    /\ users_rows (snd res) = Sqlite.rows t ++ [row_of id u].
Proof.
  intros Hd Hage Ht Hfresh Hans res. subst res.
  unfold theController. rewrite (controller_Create_decoded theService r u w Hd).
  destruct (service_create_succeeds_aux u w t Hage Ht Hfresh Hans)
    as (id & w1 & Hc & Hid & Hlt & Hrows).
  change (UserService.Create theService u w) with (userService.Create theService u w).
  rewrite Hc. exists id. repeat split; auto.
Qed.

Lemma create_handler_created_witness :
  let r := http.mkRequest
             ("{" +:+ DQ +:+ "name" +:+ DQ +:+ ":" +:+ DQ +:+ "Carl" +:+ DQ +:+ ","
              +:+ DQ +:+ "password" +:+ DQ +:+ ":" +:+ DQ +:+ "z" +:+ DQ +:+ ","
              +:+ DQ +:+ "email" +:+ DQ +:+ ":" +:+ DQ +:+ "c@x.com" +:+ DQ +:+ ","
              +:+ DQ +:+ "age" +:+ DQ +:+ ":30}") in
  let res := userController.Create theController http.NewRecorder r world3 in
  exists id,
    http.status (fst res) = Some http.StatusCreated
    /\ http.body (fst res) = pretty id
    /\ 0 < id
    /\ Forall (fun x => Sqlite.c_id x < id) [row_of 1 al]
    /\ users_rows (snd res) = [row_of 1 al] ++ [row_of id carl].
Proof.
  apply (create_handler_created _ carl world3 (Sqlite.mkTable [row_of 1 al] 1)).
  - vm_compute. reflexivity.
  - simpl. lia.
  - vm_compute. reflexivity.
  - reflexivity.
  - left. reflexivity.
Defined.

(** X22. The handler of [/user] answers a user younger than 18 with 500 and the
    message of the validation, and touches neither the database nor the
    cache. *)
Theorem create_handler_underage (r : http.Request) (u : User) (w : world) :
  Json.DecodeUser (http.Body r) = inr u ->
  Age u < 18 ->
  let res := userController.Create theController http.NewRecorder r w in
  http.status (fst res) = Some http.StatusInternalServerError
  /\ http.body (fst res) = Error errUnderage
  /\ sqlite (snd res) = sqlite w
  /\ redis (snd res) = redis w.
Proof.
  intros Hd Hage res. subst res.
  unfold theController. rewrite (controller_Create_decoded theService r u w Hd).
  change (UserService.Create theService u w) with (userService.Create theService u w).
  unfold userService.Create.
  destruct (Z.ltb_spec (Age u) 18); [|lia]. simpl. repeat split.
Qed.

Lemma create_handler_underage_witness :
  let r := http.mkRequest ("{" +:+ DQ +:+ "email" +:+ DQ +:+ ":" +:+ DQ +:+ "k@x.com"
                           +:+ DQ +:+ "," +:+ DQ +:+ "age" +:+ DQ +:+ ":17}") in
  let res := userController.Create theController http.NewRecorder r world1 in
  http.status (fst res) = Some http.StatusInternalServerError
  /\ http.body (fst res) = Error errUnderage
  /\ sqlite (snd res) = sqlite world1
  /\ redis (snd res) = redis world1.
Proof.
  apply (create_handler_underage _ (mkUser 0 "" "" "k@x.com" 17) world1).
  - vm_compute. reflexivity.
  - simpl. lia.
Defined.

(** X23. The handler of [/user] answers an email that is already registered
    with 500 and the text of the UNIQUE violation wrapped by the store;
    the tables and the cache are unchanged. *)
Theorem create_handler_duplicate (r : http.Request) (u : User) (w : world) :
  Json.DecodeUser (http.Body r) = inr u ->
  18 <= Age u ->
  email_registered (Email u) w ->
  answers (Sqlite.faults (sqlite w)) ->
  let res := userController.Create theController http.NewRecorder r w in
  http.status (fst res) = Some http.StatusInternalServerError
  /\ http.body (fst res) = "failed to insert user: UNIQUE constraint failed: users.email"
  /\ Sqlite.tables (sqlite (snd res)) = Sqlite.tables (sqlite w)
  /\ redis (snd res) = redis w.
Proof.
  intros Hd Hage Hreg Hans res. subst res.
  unfold theController. rewrite (controller_Create_decoded theService r u w Hd).
  change (UserService.Create theService u w) with (userService.Create theService u w).
  destruct (service_Create_duplicate u w Hage Hreg Hans) as (w1 & Hc & Ht & Hr).
  rewrite Hc. simpl. repeat split; assumption.
Qed.

Lemma create_handler_duplicate_witness :
  let r := http.mkRequest ("{" +:+ DQ +:+ "email" +:+ DQ +:+ ":" +:+ DQ +:+ "a@x.com"
                           +:+ DQ +:+ "," +:+ DQ +:+ "age" +:+ DQ +:+ ":25}") in
  let res := userController.Create theController http.NewRecorder r world3 in
  http.status (fst res) = Some http.StatusInternalServerError
  /\ http.body (fst res) = "failed to insert user: UNIQUE constraint failed: users.email"
  /\ Sqlite.tables (sqlite (snd res)) = Sqlite.tables (sqlite world3)
  /\ redis (snd res) = redis world3.
Proof.
  apply (create_handler_duplicate _ (mkUser 0 "" "" "a@x.com" 25) world3).
  - vm_compute. reflexivity.
  - simpl. lia.
  - vm_compute. reflexivity.
  - left. reflexivity.
Defined.

(** X24. A body that cannot be decoded as a user is answered with 400 and the
    service is not called: the database and the cache are as before,
    whatever service the controller holds. *)
Theorem create_handler_bad_body {S} `{UserService.t S} (svc : S) (r : http.Request)
    (w : world) (e : error) :
  Json.DecodeUser (http.Body r) = inl e ->
  let res := userController.Create (NewUserController svc) http.NewRecorder r w in
  http.status (fst res) = Some http.StatusBadRequest
  /\ sqlite (snd res) = sqlite w
  /\ redis (snd res) = redis w.
Proof.
  intros Hd res. subst res.
  unfold userController.Create, mbind, M_bind, mret, M_ret, log_Print. simpl.
  rewrite Hd. simpl. repeat split.
Qed.

Lemma create_handler_bad_body_witness :
  let r := http.mkRequest "{ age: 30 }" in
  let res := userController.Create theController http.NewRecorder r world1 in
  http.status (fst res) = Some http.StatusBadRequest
  /\ sqlite (snd res) = sqlite world1
  /\ redis (snd res) = redis world1.
Proof.
  apply (create_handler_bad_body theService (http.mkRequest "{ age: 30 }") world1 ErrJsonDecode).
  vm_compute. reflexivity.
Defined.


(** X26. Over the stack that [main] builds: after a request to [/user] that
    registers a user with both servers answering, a request to [/users]
    whose query reaches the database is answered with 200 and the
    encoding of the users stored before followed by the new one. *)
Theorem create_then_getall_handlers (r : http.Request) (u : User) (w : world) (t : Sqlite.table)
    (dt : Z) (fs fr : list (option string)) :
  Json.DecodeUser (http.Body r) = inr u ->
  18 <= Age u ->
  Sqlite.tables (sqlite w) !! "users" = Some t ->
  Sqlite.email_taken (Email u) (Sqlite.rows t) = false ->
  answers (Sqlite.faults (sqlite w)) ->
  answers (Redis.faults (redis w)) ->
  answers fs ->
  let post := userController.Create theController http.NewRecorder r w in
  let get := userController.GetAll theController http.NewRecorder
               (elapse dt fs fr (snd post)) in
  exists id,
    http.status (fst post) = Some http.StatusCreated
    /\ http.body (fst post) = pretty id
    /\ http.status (fst get) = Some http.StatusOK
    /\ http.body (fst get)
       = encoded (Some (map userDb.Scan (Sqlite.rows t) ++ [stored id u])).
Proof.
  intros Hd Hage Ht Hfresh Hans Hdel Hfs post get. subst post get.
  destruct (service_create_succeeds_aux u w t Hage Ht Hfresh Hans)
    as (id & w1 & Hc & Hid & Hlt & Hrows).
  assert (Hpost :
    userController.Create theController http.NewRecorder r w
    = (http.Write (pretty id)
         (http.WriteHeader http.StatusCreated http.NewRecorder),
       mkWorld (sqlite w1) (redis w1)
               (logs w1 ++ ["новый юзер создан c id: " +:+ pretty id +:+ LF]))).
  { unfold theController.
    rewrite (controller_Create_decoded theService r u w Hd).
    change (UserService.Create theService u w)
      with (userService.Create theService u w).
    rewrite Hc. reflexivity. }
  rewrite Hpost. exists id. simpl fst. simpl snd.
  split; [reflexivity|]. split; [reflexivity|].
  rewrite (service_Create_adult u w Hage) in Hc.
  destruct (proxy_Create_ok u w id w1 Hc) as [(t' & Ht' & Htabs) Hstore].
  specialize (Hstore Hdel). rewrite Ht in Ht'. injection Ht' as <-.
  set (w2 := elapse dt fs fr _).
  destruct (proxy_GetAll_miss w2
              (Sqlite.mkTable (Sqlite.rows t ++ [row_of id u]) id))
    as (w3 & Hget).
  { subst w2. simpl. rewrite Htabs. apply lookup_insert_eq. }
  { exact Hfs. }
  { subst w2. simpl. rewrite Hstore. apply lookup_deleted. }
  rewrite scan_rows_nil in Hget. simpl in Hget.
  destruct (Sqlite.rows t ++ [row_of id u]) as [|x rows] eqn:Hrows'.
  { destruct (Sqlite.rows t); discriminate. }
  rewrite <- Hrows', map_app in Hget. simpl in Hget.
  assert (Hsvc : UserService.GetAll theService w2
                 = ((Some (map userDb.Scan (Sqlite.rows t) ++ [stored id u]), None), w3))
    by exact Hget.
  destruct (controller_GetAll_ok theService w2 _ w3 Hsvc) as (Hst & _ & Hbody).
  split; [exact Hst|exact Hbody].
Qed.

Lemma create_then_getall_handlers_witness :
  let r := http.mkRequest
             ("{" +:+ DQ +:+ "name" +:+ DQ +:+ ":" +:+ DQ +:+ "Carl" +:+ DQ +:+ ","
              +:+ DQ +:+ "password" +:+ DQ +:+ ":" +:+ DQ +:+ "z" +:+ DQ +:+ ","
              +:+ DQ +:+ "email" +:+ DQ +:+ ":" +:+ DQ +:+ "c@x.com" +:+ DQ +:+ ","
              +:+ DQ +:+ "age" +:+ DQ +:+ ":30}") in
  let post := userController.Create theController http.NewRecorder r world3 in
  let get := userController.GetAll theController http.NewRecorder
               (elapse 1 [] [] (snd post)) in
  exists id,
    http.status (fst post) = Some http.StatusCreated
    /\ http.body (fst post) = pretty id
    /\ http.status (fst get) = Some http.StatusOK
    /\ http.body (fst get)
       = encoded (Some (map userDb.Scan [row_of 1 al] ++ [stored id carl])).
Proof.
  apply (create_then_getall_handlers _ carl world3 (Sqlite.mkTable [row_of 1 al] 1) 1 [] []).
  - vm_compute. reflexivity.
  - simpl. lia.
  - vm_compute. reflexivity.
  - reflexivity.
  - left. reflexivity.
  - left. reflexivity.
  - left. reflexivity.
Defined.

(** ** The text of the encoder read back by the decoder *)

(** *** Numbers *)

Lemma append_cons (x : ascii) (a b : string) :
  String x a +:+ b = String x (a +:+ b).
Proof. reflexivity. Qed.

Lemma append_nil_l (b : string) : "" +:+ b = b.
Proof. reflexivity. Qed.

Lemma append_assoc (a b c : string) : (a +:+ b) +:+ c = a +:+ (b +:+ c).
Proof.
  induction a as [|x a IH]; sapp; [reflexivity|]. f_equal. exact IH.
Qed.

Lemma append_nil_r (a : string) : a +:+ "" = a.
Proof. induction a as [|x a IH]; sapp; [reflexivity|]. f_equal. exact IH. Qed.

Lemma pretty_N_go_app x s : pretty_N_go x s = digits_of x +:+ s.
Proof.
  unfold digits_of. revert s.
  induction (N.lt_wf_0 x) as [x _ IH]. intros s.
  destruct (N.eq_dec x 0%N) as [->|Hx].
  - rewrite !pretty_N_go_0. reflexivity.
  - assert (Hpos : (0 < x)%N) by lia.
    rewrite (pretty_N_go_step x s Hpos), (pretty_N_go_step x "" Hpos).
    assert (Hlt : (x `div` 10 < x)%N) by (apply N.div_lt; lia).
    rewrite (IH _ Hlt (String (pretty_N_char (x `mod` 10)%N) s)), (IH _ Hlt (String (pretty_N_char (x `mod` 10)%N) "")).
    sapp.
    rewrite append_assoc. reflexivity.
Qed.

Lemma digits_of_step x :
  (0 < x)%N ->
  digits_of x = digits_of (x `div` 10) +:+ String (pretty_N_char (x `mod` 10)) "".
Proof.
  intros Hpos. unfold digits_of at 1.
  rewrite (pretty_N_go_step x "" Hpos). apply pretty_N_go_app.
Qed.

Lemma pretty_N_char_digit k :
  (k < 10)%N ->
  Json.is_digit (pretty_N_char k) = true
  /\ Z.of_N (byte_of (pretty_N_char k) - 48) = Z.of_N k.
Proof.
  intros Hk.
  assert (k = 0 \/ k = 1 \/ k = 2 \/ k = 3 \/ k = 4 \/ k = 5 \/ k = 6 \/ k = 7
          \/ k = 8 \/ k = 9)%N as Hcases by lia.
  repeat (destruct Hcases as [->|Hcases]; [split; reflexivity|]).
  subst k. split; reflexivity.
Qed.

Lemma all_digits_app a b : all_digits (a +:+ b) = all_digits a && all_digits b.
Proof.
  induction a as [|x a IH]; sapp; simpl; [reflexivity|].
  rewrite IH, andb_assoc. reflexivity.
Qed.

Lemma digits_value_app acc a b :
  Json.digits_value acc (a +:+ b) = Json.digits_value (Json.digits_value acc a) b.
Proof. revert acc. induction a as [|x a IH]; intros acc; sapp; simpl; auto. Qed.

Lemma digits_of_spec x :
  all_digits (digits_of x) = true
  /\ Json.digits_value 0 (digits_of x) = Z.of_N x.
Proof.
  induction (N.lt_wf_0 x) as [x _ IH].
  destruct (N.eq_dec x 0%N) as [->|Hx]; [split; reflexivity|].
  assert (Hpos : (0 < x)%N) by lia.
  assert (Hlt : (x `div` 10 < x)%N) by (apply N.div_lt; lia).
  destruct (IH _ Hlt) as [Hd Hv].
  destruct (pretty_N_char_digit (x `mod` 10)) as [Hc Hcv].
  { apply N.mod_lt. lia. }
  rewrite (digits_of_step x Hpos). split.
  - rewrite all_digits_app, Hd. simpl. rewrite Hc. reflexivity.
  - rewrite digits_value_app, Hv. simpl. rewrite Hcv.
    rewrite (N.div_mod x 10) at 3 by lia. lia.
Qed.

(** A positive number starts with a digit other than zero. *)
Lemma digits_of_head x :
  (0 < x)%N ->
  exists c r, digits_of x = String c r /\ in_range c 49 57 = true.
Proof.
  induction (N.lt_wf_0 x) as [x _ IH]. intros Hpos.
  rewrite (digits_of_step x Hpos).
  destruct (N.eq_dec (x `div` 10)%N 0%N) as [Hz|Hnz].
  - rewrite Hz. unfold digits_of. rewrite pretty_N_go_0. sapp.
    eexists. eexists. split; [reflexivity|].
    assert (Hsmall : (x < 10)%N).
    { apply N.div_small_iff in Hz; lia. }
    rewrite N.mod_small by exact Hsmall.
    assert (x = 1 \/ x = 2 \/ x = 3 \/ x = 4 \/ x = 5 \/ x = 6 \/ x = 7
            \/ x = 8 \/ x = 9)%N as Hcases by lia.
    repeat (destruct Hcases as [->|Hcases]; [reflexivity|]).
    subst x. reflexivity.
  - destruct (IH (x `div` 10)%N) as (c & r & Heq & Hc).
    + apply N.div_lt; lia.
    + apply N.neq_0_lt_0. exact Hnz.
    + rewrite Heq. sapp. eauto.
Qed.

Lemma span_digits_app d rest :
  all_digits d = true ->
  match rest with
  | String c _ => Json.is_digit c = false
  | EmptyString => True
  end ->
  Json.span_digits (d +:+ rest) = (d, rest).
Proof.
  intros Hd Hrest. induction d as [|x d IH]; sapp; simpl in *.
  - destruct rest as [|c r]; [reflexivity|]. simpl. rewrite Hrest. reflexivity.
  - apply andb_true_iff in Hd as [Hx Hd]. rewrite Hx, (IH Hd). reflexivity.
Qed.

Lemma pretty_Z_pos p : pretty (Z.pos p) = digits_of (N.pos p).
Proof. reflexivity. Qed.

Lemma pretty_Z_neg p : pretty (Z.neg p) = "-" +:+ digits_of (N.pos p).
Proof. reflexivity. Qed.

Lemma parse_number_digits x rest (neg : bool) :
  (0 < x)%N ->
  ends_number rest ->
  Json.parse_number ((if neg then "-" else "") +:+ digits_of x +:+ rest)
  = Some (Json.Int (if neg then - Z.of_N x else Z.of_N x), rest).
Proof.
  intros Hpos Hend.
  destruct (digits_of_head x Hpos) as (c & r & Heq & Hc).
  destruct (digits_of_spec x) as [Hall Hval].
  assert (Hspan : Json.span_digits (digits_of x +:+ rest) = (digits_of x, rest)).
  { apply span_digits_app; [exact Hall|].
    destruct rest; [exact I|apply Hend]. }
  assert (Hnz : (byte_of c =? 48)%N = false).
  { unfold in_range in Hc. apply andb_true_iff in Hc as [Hlo _].
    apply N.leb_le in Hlo. apply N.eqb_neq. lia. }
  assert (Hdig : Json.is_digit c = true).
  { unfold Json.is_digit, in_range in *. apply andb_true_iff in Hc as [Hlo Hhi].
    apply N.leb_le in Hlo. apply N.leb_le in Hhi.
    apply andb_true_iff. split; apply N.leb_le; lia. }
  assert (Hminus : c <> "-"%char).
  { intros ->. discriminate Hc. }
  unfold Json.parse_number.
  assert (Hsplit :
    (let '(neg0, s1) :=
       match (if neg then "-" else "") +:+ digits_of x +:+ rest with
       | String "-"%char r0 => (true, r0)
       | _ => (false, (if neg then "-" else "") +:+ digits_of x +:+ rest)
       end in (neg0, s1)) = (neg, digits_of x +:+ rest)).
  { destruct neg; sapp; [reflexivity|].
    rewrite Heq. sapp.
    destruct c as [[] [] [] [] [] [] [] []]; try reflexivity; congruence. }
  destruct (match (if neg then "-" else "") +:+ digits_of x +:+ rest with
            | String "-"%char r0 => (true, r0)
            | _ => (false, (if neg then "-" else "") +:+ digits_of x +:+ rest)
            end) as [neg0 s1].
  injection Hsplit as -> ->.
  rewrite Heq at 1. sapp. simpl. rewrite Hnz, Hdig.
  rewrite Hspan. simpl.
  assert (Hfrac :
    match rest with
    | String "."%char r0 =>
      let '(d, rest0) := Json.span_digits r0 in
      if String.eqb d "" then None else Some ("." +:+ d, rest0)
    | _ => Some ("", rest)
    end = Some ("", rest)).
  { destruct rest as [|c0 r0]; [reflexivity|].
    destruct Hend as (_ & Hdot & _).
    destruct c0 as [[] [] [] [] [] [] [] []]; try reflexivity; congruence. }
  rewrite Hfrac. simpl.
  assert (Hexp :
    match rest with
    | String c0 r0 =>
      if ((byte_of c0 =? 101) || (byte_of c0 =? 69))%N
      then
        let '(sg, r') :=
          match r0 with
          | String "+"%char x0 => ("+", x0)
          | String "-"%char x0 => ("-", x0)
          | _ => ("", r0)
          end in
        let '(d, rest0) := Json.span_digits r' in
        if String.eqb d "" then None else Some (String c0 "" +:+ sg +:+ d, rest0)
      else Some ("", rest)
    | EmptyString => Some ("", rest)
    end = Some ("", rest)).
  { destruct rest as [|c0 r0]; [reflexivity|].
    destruct Hend as (_ & _ & He & HE).
    assert (Hb : ((byte_of c0 =? 101) || (byte_of c0 =? 69))%N = false).
    { apply orb_false_iff. split; apply N.eqb_neq; intros Hb.
      - apply He. rewrite <- (ascii_N_embedding c0). unfold byte_of in Hb.
        rewrite Hb. reflexivity.
      - apply HE. rewrite <- (ascii_N_embedding c0). unfold byte_of in Hb.
        rewrite Hb. reflexivity. }
    rewrite Hb. reflexivity. }
  rewrite Hexp. simpl. rewrite Hval. destruct neg; reflexivity.
Qed.

Lemma parse_number_pretty z rest :
  ends_number rest ->
  Json.parse_number (pretty z +:+ rest) = Some (Json.Int z, rest).
Proof.
  intros Hend. destruct z as [|p|p].
  - change (pretty 0) with "0". sapp.
    unfold Json.parse_number. simpl.
    destruct rest as [|c0 r0]; [reflexivity|].
    destruct Hend as (_ & Hdot & He & HE).
    destruct c0 as [[] [] [] [] [] [] [] []]; try reflexivity; congruence.
  - rewrite pretty_Z_pos.
    exact (parse_number_digits (N.pos p) rest false eq_refl Hend).
  - rewrite pretty_Z_neg, append_assoc.
    exact (parse_number_digits (N.pos p) rest true eq_refl Hend).
Qed.

(** *** Strings *)

Lemma length_append a b :
  String.length (a +:+ b) = (String.length a + String.length b)%nat.
Proof. induction a as [|x a IH]; sapp; simpl; [reflexivity|]. rewrite IH. reflexivity. Qed.

(** One ASCII byte: what the reader makes of its escape. *)
Lemma parse_escape_ascii c f X tl out :
  (byte_of c <? 128)%N = true ->
  Json.parse_string f X = Some (tl, out) ->
  Json.parse_string (S f) (Json.escape_ascii c +:+ X) = Some (String c tl, out).
Proof.
  intros Hc HX.
  destruct c as [b0 b1 b2 b3 b4 b5 b6 b7].
  destruct b7; [destruct b0, b1, b2, b3, b4, b5, b6; discriminate Hc|].
  destruct b0, b1, b2, b3, b4, b5, b6;
    match goal with
    | |- context [Json.escape_ascii ?a] =>
      let e := eval vm_compute in (Json.escape_ascii a) in
      change (Json.escape_ascii a) with e
    end;
    sapp; simpl; rewrite HX; reflexivity.
Qed.

Lemma escape_ascii_length c : (1 <= String.length (Json.escape_ascii c))%nat.
Proof.
  unfold Json.escape_ascii, Json.u00.
  repeat match goal with |- context [if ?b then _ else _] => destruct b end;
    rewrite ?length_append; simpl; lia.
Qed.

Lemma high_byte c :
  (byte_of c <? 128)%N = false ->
  (byte_of c =? 34)%N = false /\ (byte_of c =? 92)%N = false
  /\ (byte_of c <? 32)%N = false.
Proof.
  intros H. apply N.ltb_ge in H. repeat split.
  - apply N.eqb_neq. lia.
  - apply N.eqb_neq. lia.
  - apply N.ltb_ge. lia.
Qed.

Lemma width_rune c r n :
  (byte_of c <? 128)%N = false ->
  Utf8.width (String c r) = Some n ->
  exists p X, String c r = p +:+ X /\ rune p n.
Proof.
  intros Hhigh. unfold Utf8.width. rewrite Hhigh.
  destruct (in_range c 194 223) eqn:E2.
  { destruct r as [|c1 r1]; [discriminate|].
    destruct (in_range c1 128 191) eqn:E21; [|discriminate].
    intros [= <-]. exists (String c (String c1 "")), r1.
    split; [reflexivity|]. split; [reflexivity|]. split; [lia|].
    intros Y. sapp. unfold Utf8.width. rewrite Hhigh, E2, E21. repeat split. }
  destruct (in_range c 224 239) eqn:E3.
  { destruct r as [|c1 [|c2 r2]]; try discriminate.
    match goal with
    | |- context [in_range c1 ?lo ?hi && in_range c2 128 191] =>
      destruct (in_range c1 lo hi && in_range c2 128 191) eqn:E31; [|discriminate]
    end.
    intros [= <-]. exists (String c (String c1 (String c2 ""))), r2.
    split; [reflexivity|]. split; [reflexivity|]. split; [lia|].
    intros Y. sapp. unfold Utf8.width. rewrite Hhigh, E2, E3, E31. repeat split. }
  destruct (in_range c 240 244) eqn:E4; [|discriminate].
  destruct r as [|c1 [|c2 [|c3 r3]]]; try discriminate.
  match goal with
  | |- context [in_range c1 ?lo ?hi && in_range c2 128 191 && in_range c3 128 191] =>
    destruct (in_range c1 lo hi && in_range c2 128 191 && in_range c3 128 191)
      eqn:E41; [|discriminate]
  end.
  intros [= <-]. exists (String c (String c1 (String c2 (String c3 "")))), r3.
  split; [reflexivity|]. split; [reflexivity|]. split; [lia|].
  intros Y. sapp. unfold Utf8.width. rewrite Hhigh, E2, E3, E4, E41. repeat split.
Qed.

Lemma parse_rune c p0 n X f tl out :
  (byte_of c <? 128)%N = false ->
  rune (String c p0) n ->
  Json.parse_string f X = Some (tl, out) ->
  Json.parse_string (S f) (String c p0 +:+ X) = Some (String c p0 +:+ tl, out).
Proof.
  intros Hhigh (_ & _ & Hrune) HX.
  destruct (high_byte c Hhigh) as (H34 & H92 & H32).
  destruct (Hrune X) as (Hw & Ht & Hd).
  rewrite append_cons. cbn [Json.parse_string]. rewrite H34, H92, H32, Hhigh.
  change (String c (p0 +:+ X)) with (String c p0 +:+ X).
  rewrite Hw, Hd, Ht, HX. reflexivity.
Qed.

Lemma prefix_split p s :
  String.prefix p s = true -> s = p +:+ drop_str (String.length p) s.
Proof.
  revert s. induction p as [|a p IH]; intros s; [reflexivity|].
  destruct s as [|b s]; [discriminate|]. simpl.
  destruct (ascii_dec a b) as [e|]; [|discriminate]. subst b.
  intros H. rewrite append_cons. f_equal. exact (IH s H).
Qed.

Lemma parse_line_sep f X tl out (d : ascii) (cp : N) :
  (d = "8"%char /\ cp = 8232%N) \/ (d = "9"%char /\ cp = 8233%N) ->
  Json.parse_string f X = Some (tl, out) ->
  Json.parse_string (S f) ((Json.BS +:+ "u202" +:+ String d "") +:+ X)
  = Some (Utf8.encode cp +:+ tl, out).
Proof.
  intros [[-> ->]|[-> ->]] HX.
  all: change (Json.BS +:+ "u202" +:+ _) with
         (String "092"%char (String "u"%char (String "2"%char (String "0"%char
            (String "2"%char (String "8"%char ""))))))
       || change (Json.BS +:+ "u202" +:+ _) with
         (String "092"%char (String "u"%char (String "2"%char (String "0"%char
            (String "2"%char (String "9"%char "")))))).
  all: sapp; simpl; rewrite HX; reflexivity.
Qed.

Lemma line_sep_cases s e :
  Json.line_sep s = Some e ->
  exists d cp,
    ((d = "8"%char /\ cp = 8232%N) \/ (d = "9"%char /\ cp = 8233%N))
    /\ e = Json.BS +:+ "u202" +:+ String d ""
    /\ s = Utf8.encode cp +:+ drop_str 3 s
    /\ Utf8.width s = Some 3%nat.
Proof.
  unfold Json.line_sep.
  destruct (String.prefix (Utf8.encode 8232) s) eqn:E1.
  { intros [= <-]. exists "8"%char, 8232%N.
    pose proof (prefix_split _ _ E1) as Hs.
    change (String.length (Utf8.encode 8232)) with 3%nat in Hs.
    repeat split; auto. rewrite Hs.
    change (Utf8.encode 8232) with
      (String "226"%char (String "128"%char (String "168"%char ""))).
    reflexivity. }
  destruct (String.prefix (Utf8.encode 8233) s) eqn:E2; [|discriminate].
  intros [= <-]. exists "9"%char, 8233%N.
  pose proof (prefix_split _ _ E2) as Hs.
  change (String.length (Utf8.encode 8233)) with 3%nat in Hs.
  repeat split; auto. rewrite Hs.
  change (Utf8.encode 8233) with
    (String "226"%char (String "128"%char (String "169"%char ""))).
  reflexivity.
Qed.

Lemma escape_go_cons f c r :
  Json.escape_go (S f) (String c r)
  = if (byte_of c <? 128)%N then Json.escape_ascii c +:+ Json.escape_go f r
    else match Utf8.width (String c r) with
         | None => Json.BS +:+ "ufffd" +:+ Json.escape_go f r
         | Some n =>
           match Json.line_sep (String c r) with
           | Some e => e +:+ Json.escape_go f (drop_str n (String c r))
           | None => take_str n (String c r)
                     +:+ Json.escape_go f (drop_str n (String c r))
           end
         end.
Proof. reflexivity. Qed.

Lemma utf8_valid_cons f c r :
  utf8_valid (S f) (String c r)
  = if (byte_of c <? 128)%N then utf8_valid f r
    else match Utf8.width (String c r) with
         | Some n => utf8_valid f (drop_str n (String c r))
         | None => false
         end.
Proof. reflexivity. Qed.

Lemma escape_go_nil f : Json.escape_go f "" = "".
Proof. destruct f; reflexivity. Qed.

(** What the encoder writes for a well-formed string, the reader reads
    back, given fuel beyond the length of the string. *)
Lemma parse_escape_go fuel s rest :
  utf8_valid fuel s = true ->
  forall m, (String.length s < m)%nat ->
    Json.parse_string m (Json.escape_go fuel s +:+ DQ +:+ rest) = Some (s, rest).
Proof.
  revert s. induction fuel as [|f IH]; intros s Hvalid m Hm.
  - destruct s; [|discriminate]. destruct m; [simpl in Hm; lia|]. reflexivity.
  - destruct s as [|c r].
    { destruct m; [simpl in Hm; lia|]. reflexivity. }
    destruct m as [|m]; [lia|]. simpl in Hm.
    rewrite escape_go_cons. rewrite utf8_valid_cons in Hvalid.
    destruct (byte_of c <? 128)%N eqn:Hc.
    + rewrite append_assoc. apply parse_escape_ascii; [exact Hc|].
      apply IH; [exact Hvalid|lia].
    + destruct (Utf8.width (String c r)) as [n|] eqn:Hw; [|discriminate].
      destruct (width_rune c r n Hc Hw) as (p & X & Hs & Hrune).
      destruct Hrune as (Hlen & Hn & Hrune).
      destruct (Hrune X) as (_ & Htake & Hdrop).
      rewrite Hs in Hvalid |- *. rewrite Hdrop in Hvalid |- *.
      assert (HX : (String.length X < m)%nat).
      { apply (f_equal String.length) in Hs. rewrite length_append in Hs.
        simpl in Hs. lia. }
      destruct (Json.line_sep (p +:+ X)) as [e|] eqn:Hsep.
      * destruct (line_sep_cases _ _ Hsep) as (d & cp & Hd & -> & Hsplit & Hw3).
        rewrite <- Hs in Hw3. rewrite Hw3 in Hw. injection Hw as <-.
        rewrite Hdrop in Hsplit.
        rewrite append_assoc.
        rewrite (parse_line_sep m _ X rest d cp Hd (IH X Hvalid m HX)).
        rewrite <- Hsplit. reflexivity.
      * rewrite Htake, append_assoc.
        destruct p as [|c' p0]; [simpl in Hlen; lia|].
        assert (c' = c) as -> by (rewrite append_cons in Hs; congruence).
        apply (parse_rune c p0 n); [exact Hc| |].
        { split; [exact Hlen|]. split; [exact Hn|exact Hrune]. }
        apply IH; [exact Hvalid|exact HX].
Qed.

Lemma escape_go_length fuel s :
  utf8_valid fuel s = true ->
  (String.length s <= String.length (Json.escape_go fuel s))%nat.
Proof.
  revert s. induction fuel as [|f IH]; intros s Hvalid.
  - destruct s; [simpl; lia|discriminate].
  - destruct s as [|c r]; [simpl; lia|].
    rewrite escape_go_cons. rewrite utf8_valid_cons in Hvalid.
    destruct (byte_of c <? 128)%N eqn:Hc.
    + rewrite length_append. pose proof (escape_ascii_length c).
      pose proof (IH r Hvalid). simpl. lia.
    + destruct (Utf8.width (String c r)) as [n|] eqn:Hw; [|discriminate].
      destruct (width_rune c r n Hc Hw) as (p & X & Hs & Hlen & Hn & Hrune).
      destruct (Hrune X) as (_ & Htake & Hdrop).
      rewrite Hs in Hvalid |- *. rewrite Hdrop in Hvalid |- *.
      pose proof (IH X Hvalid) as HX.
      destruct (Json.line_sep (p +:+ X)) as [e|] eqn:Hsep.
      * destruct (line_sep_cases _ _ Hsep) as (d & cp & _ & -> & _ & Hw3).
        rewrite <- Hs, Hw in Hw3. injection Hw3 as ->.
        rewrite !length_append in *. simpl. lia.
      * rewrite Htake, !length_append. lia.
Qed.

(** A quoted string followed by anything reads back as the string. *)
Lemma parse_quoted_let s rest :
  well_encoded s ->
  let r := Json.escape_go (String.length s) s +:+ DQ +:+ rest in
  Json.parse_string (String.length r) r = Some (s, rest).
Proof.
  intros Hvalid r. subst r. apply parse_escape_go; [exact Hvalid|].
  pose proof (escape_go_length _ s Hvalid). rewrite !length_append. simpl. lia.
Qed.

Lemma parse_quoted s rest :
  well_encoded s ->
  Json.parse_string
    (String.length (Json.escape_go (String.length s) s +:+ DQ +:+ rest))
    (Json.escape_go (String.length s) s +:+ DQ +:+ rest) = Some (s, rest).
Proof. exact (parse_quoted_let s rest). Qed.

(** *** Values *)

Lemma pretty_head (z : Z) rest :
  exists c r, pretty z +:+ rest = String c r
    /\ (c = "-"%char \/ in_range c 48 57 = true).
Proof.
  destruct z as [|p|p].
  - exists "0"%char, rest. split; [reflexivity|right; reflexivity].
  - rewrite pretty_Z_pos.
    destruct (digits_of_head (N.pos p) eq_refl) as (c & r & -> & Hc).
    exists c, (r +:+ rest). split; [apply append_cons|]. right.
    destruct c as [[] [] [] [] [] [] [] []]; try discriminate; reflexivity.
  - rewrite pretty_Z_neg. exists "-"%char, (digits_of (N.pos p) +:+ rest).
    split; [|left; reflexivity]. rewrite append_assoc. reflexivity.
Qed.

Lemma reads_back_int z : reads_back (Json.Int z) 1.
Proof.
  intros f rest Hf Hend. destruct f as [|f]; [lia|].
  pose proof (parse_number_pretty z rest Hend) as Hnum.
  change (Json.render (Json.Int z)) with (pretty z).
  destruct (pretty_head z rest) as (c & r & Heq & Hc).
  rewrite Heq in *. destruct Hc as [->|Hc]; [exact Hnum|].
  destruct c as [[] [] [] [] [] [] [] []]; try discriminate; exact Hnum.
Qed.

Lemma parse_value_quote f X :
  Json.parse_value (S f) (String dquote X)
  = '(x, out) ← Json.parse_string (String.length X) X; Some (Json.Str x, out).
Proof. reflexivity. Qed.

Lemma quote_cons s rest :
  Json.quote s +:+ rest
  = String dquote (Json.escape_go (String.length s) s +:+ DQ +:+ rest).
Proof. unfold Json.quote. rewrite !append_assoc. reflexivity. Qed.

Lemma reads_back_str s : well_encoded s -> reads_back (Json.Str s) 1.
Proof.
  intros Hs f rest Hf _. destruct f as [|f]; [lia|].
  change (Json.render (Json.Str s)) with (Json.quote s).
  rewrite quote_cons, parse_value_quote, (parse_quoted s rest Hs). reflexivity.
Qed.

Lemma parse_members_quote f X :
  Json.parse_members (S f) (String dquote X)
  = '(k, r1) ← Json.parse_string (String.length X) X;
    match Json.skip_ws r1 with
    | String ":"%char r2 =>
      '(v, r3) ← Json.parse_value f r2;
      match Json.skip_ws r3 with
      | String ","%char r4 =>
        '(kvs, out) ← Json.parse_members f r4; Some ((k, v) :: kvs, out)
      | String "}"%char r4 => Some ([(k, v)], r4)
      | _ => None
      end
    | _ => None
    end.
Proof. reflexivity. Qed.

Lemma ends_number_cons c r :
  Json.is_digit c = false -> c <> "."%char -> c <> "e"%char -> c <> "E"%char ->
  ends_number (String c r).
Proof. intros; repeat split; assumption. Qed.

Lemma parse_member f0 f k v X :
  well_encoded k -> reads_back v f0 -> (f0 <= f)%nat -> ends_number X ->
  forall X0, X0 = member (k, v) +:+ X ->
  Json.parse_members (S f) X0
  = match Json.skip_ws X with
    | String ","%char r4 =>
      '(kvs, out) ← Json.parse_members f r4; Some ((k, v) :: kvs, out)
    | String "}"%char r4 => Some ([(k, v)], r4)
    | _ => None
    end.
Proof.
  intros Hk Hv Hf Hend X0 ->. unfold member. simpl fst. simpl snd.
  rewrite !append_assoc.
  rewrite quote_cons, parse_members_quote.
  rewrite (parse_quoted k _ Hk).
  change (":" +:+ ?x) with (String ":"%char x).
  cbn [mbind option_bind Json.skip_ws].
  change (Json.is_ws ":"%char) with false. cbv beta iota.
  rewrite (Hv f X Hf Hend). reflexivity.
Qed.

Lemma parse_members_join f0 l : forall f rest,
  l <> [] ->
  Forall (fun kv => well_encoded (fst kv) /\ reads_back (snd kv) f0) l ->
  (f0 + length l <= f)%nat ->
  Json.parse_members f (join_str "," (map member l) +:+ "}" +:+ rest)
  = Some (l, rest).
Proof.
  induction l as [|[k v] l IH]; intros f rest Hne Hall Hf; [congruence|].
  inversion Hall as [|? ? [Hk Hv] Hall']; subst. simpl in Hk, Hv.
  destruct f as [|f]; [simpl in Hf; lia|]. simpl in Hf.
  destruct l as [|kv' l'].
  - cbn [map join_str].
    rewrite (parse_member f0 f k v (String "}"%char rest) Hk Hv);
      [reflexivity|lia| |reflexivity].
    apply ends_number_cons; [reflexivity|discriminate..].
  - change (join_str "," (map member ((k, v) :: kv' :: l')))
      with (member (k, v) +:+ "," +:+ join_str "," (map member (kv' :: l'))).
    rewrite (parse_member f0 f k v
               (String ","%char
                  (join_str "," (map member (kv' :: l')) +:+ "}" +:+ rest)) Hk Hv);
      [|lia| |rewrite !append_assoc; reflexivity].
    + cbn [Json.skip_ws]. change (Json.is_ws ","%char) with false. cbv iota.
      rewrite (IH f rest); [reflexivity|discriminate|exact Hall'|simpl in *; lia].
    + apply ends_number_cons; [reflexivity|discriminate..].
Qed.

Lemma parse_value_brace f X :
  Json.parse_value (S f) (String "{"%char (String dquote X))
  = '(l, out) ← Json.parse_members f (String dquote X); Some (Json.Obj l, out).
Proof. reflexivity. Qed.

Lemma parse_value_obj f0 l f rest :
  l <> [] ->
  Forall (fun kv => well_encoded (fst kv) /\ reads_back (snd kv) f0) l ->
  (S (f0 + length l) <= f)%nat ->
  Json.parse_value f (Json.render (Json.Obj l) +:+ rest) = Some (Json.Obj l, rest).
Proof.
  intros Hne Hall Hf. destruct f as [|f]; [lia|].
  pose proof (parse_members_join f0 l f rest Hne Hall ltac:(lia)) as Hm.
  change (Json.render (Json.Obj l))
    with ("{" +:+ join_str "," (map member l) +:+ "}").
  rewrite !append_assoc. change ("{" +:+ ?x) with (String "{"%char x).
  destruct l as [|[k v] l]; [congruence|].
  assert (Hhead : exists X,
    join_str "," (map member ((k, v) :: l)) +:+ "}" +:+ rest = String dquote X).
  { destruct l; cbn [map join_str]; unfold member at 1; simpl fst;
      rewrite ?append_assoc, quote_cons; eauto. }
  destruct Hhead as (X & HX). rewrite HX in *.
  rewrite parse_value_brace, Hm. reflexivity.
Qed.

Lemma well_encoded_keys :
  well_encoded "id" /\ well_encoded "name" /\ well_encoded "password"
  /\ well_encoded "email" /\ well_encoded "age".
Proof. repeat split. Qed.

(** The object of a user reads back, whatever follows it. *)
Lemma parse_value_user u f rest :
  well_encoded (Name u) -> well_encoded (Password u) -> well_encoded (Email u) ->
  (7 <= f)%nat ->
  Json.parse_value f (Json.render (Json.marshalUser u) +:+ rest)
  = Some (Json.marshalUser u, rest).
Proof.
  intros Hn Hp He Hf. unfold Json.marshalUser.
  apply (parse_value_obj 1); [discriminate| |simpl; lia].
  destruct well_encoded_keys as (K1 & K2 & K3 & K4 & K5).
  repeat constructor; simpl; auto using reads_back_int, reads_back_str.
Qed.

Lemma reads_back_user u :
  well_encoded (Name u) -> well_encoded (Password u) -> well_encoded (Email u) ->
  reads_back (Json.marshalUser u) 7.
Proof.
  intros Hn Hp He f rest Hf _. apply parse_value_user; assumption.
Qed.

(** *** Arrays *)

Lemma parse_elems_join f0 l : forall f rest,
  l <> [] ->
  Forall (fun j => reads_back j f0) l ->
  (f0 + length l <= f)%nat ->
  Json.parse_elems f (join_str "," (map Json.render l) +:+ "]" +:+ rest)
  = Some (l, rest).
Proof.
  induction l as [|j l IH]; intros f rest Hne Hall Hf; [congruence|].
  inversion Hall as [|? ? Hj Hall']; subst.
  destruct f as [|f]; [simpl in Hf; lia|]. simpl in Hf.
  destruct l as [|j' l'].
  - cbn [map join_str Json.parse_elems].
    change ("]" +:+ rest) with (String "]"%char rest).
    rewrite (Hj f (String "]"%char rest)); [reflexivity|lia|].
    apply ends_number_cons; [reflexivity|discriminate..].
  - change (join_str "," (map Json.render (j :: j' :: l')))
      with (Json.render j +:+ "," +:+ join_str "," (map Json.render (j' :: l'))).
    rewrite !append_assoc. change ("," +:+ ?x) with (String ","%char x).
    cbn [Json.parse_elems].
    rewrite (Hj f); [|lia|apply ends_number_cons; [reflexivity|discriminate..]].
    cbn [mbind option_bind Json.skip_ws]. change (Json.is_ws ","%char) with false.
    cbv beta iota.
    rewrite (IH f rest); [reflexivity|discriminate|exact Hall'|simpl in *; lia].
Qed.

Lemma render_user_head u :
  exists X, Json.render (Json.marshalUser u)
            = String "{"%char (String dquote (String "i"%char (String "d"%char
                (String dquote (String ":"%char X))))).
Proof. eexists. reflexivity. Qed.

Lemma render_user_length u :
  (6 <= String.length (Json.render (Json.marshalUser u)))%nat.
Proof. destruct (render_user_head u) as (X & ->). simpl. lia. Qed.

Lemma join_users_length l :
  (6 * length l
   <= String.length (join_str "," (map Json.render (map Json.marshalUser l))))%nat.
Proof.
  induction l as [|u l IH]; [simpl; lia|].
  pose proof (render_user_length u) as Hu.
  destruct l as [|u' l'].
  - cbn [map join_str length]. lia.
  - change (join_str "," (map Json.render (map Json.marshalUser (u :: u' :: l'))))
      with (Json.render (Json.marshalUser u) +:+ "," +:+
            join_str "," (map Json.render (map Json.marshalUser (u' :: l')))).
    rewrite !length_append. cbn [length] in *. lia.
Qed.

Lemma parse_value_bracket f c X :
  Json.is_ws c = false -> c <> "]"%char ->
  Json.parse_value (S f) (String "["%char (String c X))
  = '(l, out) ← Json.parse_elems f (String c X); Some (Json.Arr l, out).
Proof.
  intros Hws Hc.
  destruct c as [[] [] [] [] [] [] [] []];
    try reflexivity; try discriminate Hws; congruence.
Qed.

Lemma reads_back_users l :
  Forall user_ok l ->
  reads_back (Json.Arr (map Json.marshalUser l)) (8 + length l).
Proof.
  intros Hall f rest Hf _. destruct f as [|f]; [lia|].
  destruct l as [|u l]; [reflexivity|].
  change (Json.render (Json.Arr (map Json.marshalUser (u :: l))))
    with ("[" +:+ join_str "," (map Json.render (map Json.marshalUser (u :: l)))
          +:+ "]").
  rewrite !append_assoc. change ("[" +:+ ?x) with (String "["%char x).
  assert (Hm : Json.parse_elems f
                 (join_str "," (map Json.render (map Json.marshalUser (u :: l)))
                  +:+ "]" +:+ rest)
               = Some (map Json.marshalUser (u :: l), rest)).
  { apply (parse_elems_join 7); [discriminate| |rewrite length_map; simpl in *; lia].
    apply List.Forall_map. eapply List.Forall_impl; [|exact Hall].
    intros x (_ & _ & Hn & Hp & He). apply reads_back_user; assumption. }
  assert (Hhead : exists X,
    join_str "," (map Json.render (map Json.marshalUser (u :: l))) +:+ "]" +:+ rest
    = String "{"%char X).
  { destruct (render_user_head u) as (X & HX).
    destruct l; cbn [map join_str]; rewrite HX; eexists; reflexivity. }
  destruct Hhead as (X & HX). rewrite HX in *.
  rewrite parse_value_bracket, Hm; [reflexivity|reflexivity|discriminate].
Qed.

(** *** Documents into users *)

Lemma unmarshal_marshal_user u v :
  Json.int64_ok (Id u) = true -> Json.int64_ok (Age u) = true ->
  Json.unmarshalUser (Json.marshalUser u) v = Some u.
Proof.
  intros Hid Hage. destruct u as [i n p e a]. simpl in *.
  rewrite Hid. simpl. rewrite Hage. reflexivity.
Qed.

Lemma unmarshal_marshal_users l :
  Forall user_ok l ->
  mapM (fun e => Json.unmarshalUser e zeroUser) (map Json.marshalUser l) = Some l.
Proof.
  induction 1 as [|u l (Hid & Hage & _) _ IH]; [reflexivity|].
  cbn [map mapM]. rewrite (unmarshal_marshal_user u zeroUser Hid Hage).
  simpl. rewrite IH. reflexivity.
Qed.

Lemma parse_render_users us :
  users_ok us ->
  Json.parse (Json.render (Json.marshalUsers us) +:+ LF)
  = Some (Json.marshalUsers us).
Proof.
  intros Hok. destruct us as [l|]; [|reflexivity].
  unfold Json.parse. cbn [Json.marshalUsers].
  rewrite (reads_back_users l Hok);
    [reflexivity| |apply ends_number_cons; [reflexivity|discriminate..]].
  destruct l as [|u l]; [simpl; lia|].
  change (Json.render (Json.Arr (map Json.marshalUser (u :: l))))
    with ("[" +:+ join_str "," (map Json.render (map Json.marshalUser (u :: l)))
          +:+ "]").
  pose proof (join_users_length (u :: l)).
  rewrite !length_append. cbn [length] in *. lia.
Qed.

(** X27. A list of users whose strings are well-formed UTF-8 and whose numbers
    are 64-bit is read back from its encoding as the same list. *)
Theorem encode_decode_users us :
  users_ok us -> roundtrips us.
Proof.
  intros Hok. unfold roundtrips, Json.Encode, Json.marshal, Json.DecodeUsers.
  rewrite (parse_render_users us Hok).
  destruct us as [l|]; [|reflexivity].
  cbn [mbind option_bind Json.marshalUsers Json.unmarshalUsers].
  rewrite (unmarshal_marshal_users l Hok). reflexivity.
Qed.

Lemma encode_decode_users_witness :
  users_ok (Some [stored 1 al; mkUser 2 "Зоя <z&co>" "p\w" "zoe@x.com" 30])
  /\ roundtrips (Some [stored 1 al; mkUser 2 "Зоя <z&co>" "p\w" "zoe@x.com" 30]).
Proof.
  assert (Hok : users_ok (Some [stored 1 al;
                                mkUser 2 "Зоя <z&co>" "p\w" "zoe@x.com" 30])).
  { repeat constructor. }
  split; [exact Hok|]. exact (encode_decode_users _ Hok).
Defined.

(** X28. The body of a request that is the encoding of a user, followed by
    anything, is decoded as that user. *)
Theorem decode_encoded_user (u : User) (rest : string) :
  user_ok u ->
  Json.DecodeUser (Json.render (Json.marshalUser u) +:+ rest) = inr u.
Proof.
  intros (Hid & Hage & Hn & Hp & He). unfold Json.DecodeUser, Json.parse.
  rewrite (parse_value_user u _ rest Hn Hp He).
  - cbn [fmap option_fmap option_map mbind option_bind fst].
    rewrite (unmarshal_marshal_user u zeroUser Hid Hage). reflexivity.
  - pose proof (render_user_length u). rewrite length_append. lia.
Qed.

Lemma decode_encoded_user_witness :
  user_ok al /\ Json.DecodeUser (Json.render (Json.marshalUser al) +:+ LF) = inr al.
Proof.
  assert (Hok : user_ok al) by (repeat constructor).
  split; [exact Hok|]. exact (decode_encoded_user al LF Hok).
Defined.
